(** * Beelee backend: authentication gate, token service and session store

    A shallow embedding of [server.js].  Route handlers become functions
    from a request and the server state to an outcome and a new state; the
    two libraries the server calls ([jsonwebtoken], [bcryptjs]) enter
    through the primitives they are built on, which are variables of the
    section [Server]. *)

From Stdlib Require Import ZArith QArith Qcanon Ascii String Lia.
From stdpp Require Import gmap strings list fin_maps.

Local Open Scope Z_scope.

(** ** JavaScript values that cross the wire *)

(** A number [JSON.parse] can produce: a finite double, which is a
    rational, or an infinity (a literal too large for a double).  The two
    zeros are one value here; [===], truthiness and [JSON.stringify] do not
    tell them apart. *)
Inductive JsNumber :=
| Finite (q : Qc)
| Infinite (negative : bool).

Definition number_eq (x y : JsNumber) : bool :=
  match x, y with
  | Finite p, Finite q => Qeq_bool p q
  | Infinite a, Infinite b => Bool.eqb a b
  | _, _ => false
  end.

Definition number_of_Z (n : Z) : JsNumber := Finite (Q2Qc (inject_Z n)).

(** A parsed JSON value. *)
#[warnings="-register-all"]
Inductive JSON :=
| JNull
| JBool (b : bool)
| JNum (n : JsNumber)
| JStr (s : string)
| JArr (items : list JSON)
| JObj (fields : list (string * JSON)).

(** A JavaScript value read from a property: [None] is [undefined]. *)
Definition JSVal := option JSON.

(** What [express.json()] leaves in [req.body]: an object or an array
    (the parser is strict), the empty object when no JSON was sent. *)
Inductive Body :=
| BObj (fields : list (string * JSON))
| BArr (items : list JSON).

Definition to_json (b : Body) : JSON :=
  match b with
  | BObj fs => JObj fs
  | BArr xs => JArr xs
  end.

Fixpoint assoc (k : string) (fs : list (string * JSON)) : JSVal :=
  match fs with
  | [] => None
  | (k', v) :: rest => if String.eqb k k' then Some v else assoc k rest
  end.

(** The own field [k] of a body: a field of an object, nothing on an
    array.  For the names [id], [username] and [password] this is [b.k];
    [b.basket] also looks at what the body inherits, see [read_basket]. *)
Definition body_prop (k : string) (b : Body) : JSVal :=
  match b with
  | BObj fs => assoc k fs
  | BArr _ => None
  end.

(** JavaScript truthiness, as [!v] tests it. *)
Definition truthy (v : JSVal) : bool :=
  match v with
  | None => false
  | Some JNull => false
  | Some (JBool b) => b
  | Some (JNum n) => negb (number_eq n (number_of_Z 0))
  | Some (JStr s) => negb (String.eqb s EmptyString)
  | Some (JArr _) => true
  | Some (JObj _) => true
  end.

(** [a === b] between two property values of separately parsed request
    bodies: primitives compare by value, [undefined] equals [undefined],
    and two arrays or objects are distinct references. *)
Definition strict_eq (a b : JSVal) : bool :=
  match a, b with
  | None, None => true
  | Some JNull, Some JNull => true
  | Some (JBool x), Some (JBool y) => Bool.eqb x y
  | Some (JNum x), Some (JNum y) => number_eq x y
  | Some (JStr x), Some (JStr y) => String.eqb x y
  | _, _ => false
  end.

(** ** Strings

    A string is its text in UTF-8.  Equality, emptiness and splitting at
    the space character are the same on the text and on its UTF-16 code
    units; [toLowerCase] is a variable of the section [Server]. *)

Definition lower_ascii (c : ascii) : ascii :=
  let n := nat_of_ascii c in
  if ((65 <=? n) && (n <=? 90))%nat then ascii_of_nat (n + 32) else c.

(** [s.toLowerCase()] on a string of ASCII characters. *)
Fixpoint ascii_toLowerCase (s : string) : string :=
  match s with
  | EmptyString => EmptyString
  | String c r => String (lower_ascii c) (ascii_toLowerCase r)
  end.

(** [s.split(' ')]: never empty, [''.split(' ')] is [['']]. *)
Fixpoint split_space (s : string) : list string :=
  match s with
  | EmptyString => [EmptyString]
  | String c r =>
      if Ascii.eqb c " "%char then EmptyString :: split_space r
      else match split_space r with
           | h :: t => String c h :: t
           | [] => [String c EmptyString]
           end
  end.

Fixpoint no_space (s : string) : bool :=
  match s with
  | EmptyString => true
  | String c r => negb (Ascii.eqb c " "%char) && no_space r
  end.

(** ** Arrays *)

(** [xs.findIndex(p)]: the first index whose element satisfies [p], -1 when
    there is none. *)
Fixpoint findIndex {A : Type} (p : A → bool) (xs : list A) : Z :=
  match xs with
  | [] => -1
  | x :: rest =>
      if p x then 0
      else let i := findIndex p rest in if i <? 0 then -1 else i + 1
  end.

(** [v.k] for one of the names [recipes], [passwordHash], [id] and [name]
    on a parsed JSON value: an own field of an object; a primitive or an
    array has none of them. *)
Definition json_prop (k : string) (v : JSON) : JSVal :=
  match v with
  | JObj fs => assoc k fs
  | _ => None
  end.

(** The field [k] of an object literal, left out when it is
    [undefined]. *)
Definition field (k : string) (v : JSVal) : list (string * JSON) :=
  match v with
  | Some x => [(k, x)]
  | None => []
  end.

Definition is_primitive (v : JSON) : bool :=
  match v with
  | JArr _ | JObj _ => false
  | _ => true
  end.

(** ** Objects used as tables

    [users] and [sessions] are plain objects.  [table[k]] finds an own
    property first and then what every object inherits from
    [Object.prototype]: under these twelve names a table without such a
    key answers with a built-in function, or with [Object.prototype]
    itself for [__proto__], all of them truthy; under [basket] it answers
    with what a request has stored on [Object.prototype], see
    [finds_basket]. *)
Definition Object_prototype : list string :=
  [ "constructor"; "__defineGetter__"; "__defineSetter__"; "hasOwnProperty";
    "__lookupGetter__"; "__lookupSetter__"; "isPrototypeOf";
    "propertyIsEnumerable"; "toString"; "valueOf"; "__proto__";
    "toLocaleString" ].

Definition inherited (k : string) : bool :=
  bool_decide (k ∈ Object_prototype).

(** The [name] of the built-in found under an inherited key: a function
    has its name, [Object.prototype] has none. *)
Definition builtin_name (k : string) : option string :=
  if String.eqb k "constructor" then Some "Object"
  else if String.eqb k "__proto__" then None
  else Some k.

(** ** Records of the two stores *)

Record User := mkUser {
  id : string;
  passwordHash : string;
  name : string
}.

(** A session record.  [basket] is the own property: [None] when the
    record has none (a record read back from a file that was written while
    its basket was [undefined]), [Some None] when it is [undefined]. *)
Record Session := mkSession {
  recipes : list Body;
  basket : option JSVal
}.

(** The server's mutable objects.  [users] and [sessions] are the
    in-memory tables by their own properties; [sessions_file] is the
    snapshot of [sessions] last handed to [fs.writeFileSync]; [builtins]
    holds, by inherited key, the [basket] property a request has put on the
    built-in object that a table answers with under that key. *)
Record State := mkState {
  users : gmap string User;
  sessions : gmap string Session;
  sessions_file : gmap string Session;
  builtins : gmap string JSVal
}.

(** [Object.prototype.basket]: what an object without an own [basket]
    reads. *)
Definition prototype_basket (st : State) : JSVal :=
  default None (builtins st !! "__proto__").

(** [table.basket] on a table without such a key, when it is truthy: the
    value stored under [Object.prototype.basket]. *)
Definition finds_basket (k : string) (st : State) : option JSON :=
  if String.eqb k "basket" then
    match prototype_basket st with
    | Some v => if truthy (Some v) then Some v else None
    | None => None
    end
  else None.

(** [Object.prototype] has nothing truthy under [k]. *)
Definition vacant (k : string) (st : State) : bool :=
  negb (inherited k) &&
  match finds_basket k st with
  | Some _ => false
  | None => true
  end.

(** [b.basket] when [Object.prototype.basket] is [proto]: the own field,
    else the inherited one. *)
Definition inherit_basket (b : Body) (proto : JSVal) : JSVal :=
  match body_prop "basket" b with
  | Some v => Some v
  | None => proto
  end.

(** [req.body.basket] *)
Definition read_basket (b : Body) (st : State) : JSVal :=
  inherit_basket b (prototype_basket st).

(** ** Tokens *)

(** The payload of a token.  [iat], [exp] and [nbf] are seconds since the
    epoch; [exp] and [nbf] are optional claims. *)
Record Claims := mkClaims {
  userId : string;
  username : string;
  iat : Z;
  exp : option Z;
  nbf : option Z
}.

(** A decoded token: the payload and the signature segment. *)
Record Jws := mkJws {
  payload : Claims;
  signature : string
}.

Inductive VerifyResult :=
| Valid (c : Claims)
| Invalid.

(** ** Requests and outcomes *)

Record Request := mkRequest {
  authorization : option string;
  body : Body;
  params_id : string;
  user : option Claims
}.

Definition set_user (req : Request) (c : Claims) : Request :=
  {| authorization := authorization req;
     body := body req;
     params_id := params_id req;
     user := Some c |}.

Inductive JsError :=
| TypeError
| LibraryError.

(** What a route does with a request: [Sent status body] is
    [res.status(status).json(body)], [Uncaught e] an exception that leaves
    the handler (Express answers it with a 500).  A field whose value is
    [undefined] is left out of [body], as [JSON.stringify] leaves it out.

    [Unmodelled] marks the requests this development does not follow.
    They all begin with a table that finds the value of
    [Object.prototype.basket] under the key [basket]: a basket update or
    clearing for which that value is an array or an object, a recipe save
    or deletion for which it is an object with an array under [recipes],
    and a login that signs an [id] of it which is not a string.  The first
    two write into an object that other properties may refer to, the last
    makes a token whose payload [Claims] cannot hold; nothing is stated
    about them, nor about the state they leave. *)
Inductive Outcome :=
| Sent (status : Z) (json : JSVal)
| Uncaught (e : JsError)
| Unmodelled.

(** The middleware either answers itself or calls [next()] with the request
    it has annotated. *)
Inductive Gate :=
| Reject (o : Outcome)
| Next (req : Request).

Definition error_body (msg : string) : JSVal :=
  Some (JObj [("error", JStr msg)]).

Definition success_body : JSVal :=
  Some (JObj [("success", JBool true)]).

Definition user_body (u : User) : JSON :=
  JObj [("user", JObj [("id", JStr (id u)); ("name", JStr (name u))])].

(** [{user: {id: user.id, name: user.name}}] for the built-in found under
    an inherited key: it has no [id]. *)
Definition builtin_body (k : string) : JSON :=
  JObj [("user", JObj match builtin_name k with
                      | Some n => [("name", JStr n)]
                      | None => []
                      end)].

(** ** An instance of the library primitives

    A serializer, a keyed hash and a password check simple enough to run
    the routes on; they stand in for the libraries in the examples. *)

Fixpoint pos_to_bits (p : positive) : string :=
  match p with
  | xH => EmptyString
  | xO q => String "0" (pos_to_bits q)
  | xI q => String "1" (pos_to_bits q)
  end.

Fixpoint bits_to_pos (s : string) : positive :=
  match s with
  | EmptyString => xH
  | String c r => if Ascii.eqb c "1" then xI (bits_to_pos r) else xO (bits_to_pos r)
  end.

Definition jws_fields (j : Jws)
    : string * string * Z * option Z * option Z * string :=
  (userId (payload j), username (payload j), iat (payload j),
   exp (payload j), nbf (payload j), signature j).

Definition jws_of_fields
    (t : string * string * Z * option Z * option Z * string) : Jws :=
  let '(uid, uname, i, e, n, sig) := t in
  {| payload := {| userId := uid; username := uname; iat := i;
                   exp := e; nbf := n |};
     signature := sig |}.

Definition demo_encode (j : Jws) : string :=
  String "J" (pos_to_bits (encode (jws_fields j))).

Definition demo_decode (s : string) : option Jws :=
  match s with
  | EmptyString => None
  | String c bits =>
      if Ascii.eqb c "J" then jws_of_fields <$> decode (bits_to_pos bits)
      else None
  end.

Definition demo_hmac (secret : string) (c : Claims) : string :=
  secret +:+ "/" +:+ userId c +:+ "/" +:+ username c.

Definition demo_compare (pw hash : string) : option bool :=
  Some (String.eqb ("$2a$10$" +:+ pw) hash).

Definition demo_secret : string :=
  "your-super-secret-key-change-this-in-production".

Definition thomas : Claims :=
  {| userId := "thomas"; username := "thomas"; iat := 1700000000;
     exp := Some (1700000000 + 604800); nbf := None |}.

(** The server after a first start: one account, no session yet. *)
Definition demo_state : State :=
  {| users := {["thomas" := {| id := "thomas";
                                passwordHash := "$2a$10$shopping123";
                                name := "Thomas" |}]};
     sessions := ∅;
     sessions_file := ∅;
     builtins := ∅ |}.

Definition login_request (u p : string) : Request :=
  {| authorization := None;
     body := BObj [("username", JStr u); ("password", JStr p)];
     params_id := EmptyString;
     user := None |}.

(** A login whose password is a number. *)
Definition login_request_number (u : string) (n : Z) : Request :=
  {| authorization := None;
     body := BObj [("username", JStr u); ("password", JNum (number_of_Z n))];
     params_id := EmptyString;
     user := None |}.

Definition soup : Body := BObj [("id", JStr "r1"); ("name", JStr "Soup")].
Definition stew : Body := BObj [("id", JStr "r1"); ("name", JStr "Stew")].




(** A request the gate has already annotated with the payload [thomas]. *)
Definition as_thomas (b : Body) (rid : string) : Request :=
  {| authorization := None; body := b; params_id := rid; user := Some thomas |}.

(** A payload whose user id is a name every object inherits. *)
Definition intruder (k : string) : Claims :=
  {| userId := k; username := k; iat := 1700000000;
     exp := Some (1700000000 + 604800); nbf := None |}.


(** A request carrying [token] under the [Bearer] scheme. *)
Definition bearer_request (token : string) (b : Body) (rid : string) : Request :=
  {| authorization := Some ("Bearer " +:+ token);
     body := b;
     params_id := rid;
     user := None |}.

Section Server.

(** [JWT_SECRET]: [process.env.JWT_SECRET] or the built-in default. *)
Variable JWT_SECRET : string.

(** The keyed hash [jsonwebtoken] signs with (HMAC-SHA256 of the encoded
    header and payload under the secret). *)
Variable hmac : string → Claims → string.

(** The compact serialization of a token and its parser (base64url of
    JSON, three dot-separated segments); [None] is a malformed token. *)
Variable jws_encode : Jws → string.
Variable jws_decode : string → option Jws.

(** What [bcrypt.compareSync] computes once it has found both arguments
    to be strings; [None] when it throws on a malformed hash. *)
Variable bcrypt_compare : string → string → option bool.

(** [String.prototype.toLowerCase] *)
Variable toLowerCase : string → string.

(** The parser reads back what the serializer wrote. *)
Hypothesis jws_decode_encode : ∀ j, jws_decode (jws_encode j) = Some j.

(** A serialized token is not empty and has no space in it. *)
Hypothesis jws_encode_compact :
  ∀ j, no_space (jws_encode j) = true ∧ jws_encode j ≠ EmptyString.

(** Lowercasing gives the empty string for the empty string only. *)
Hypothesis toLowerCase_empty :
  ∀ u, toLowerCase u = EmptyString ↔ u = EmptyString.

(** *** Token service: [jwt.sign] and [jwt.verify] *)

(** Seven days, the [expiresIn: '7d'] of the login route, in seconds. *)
Definition expiresIn : Z := 7 * 24 * 60 * 60.

(** [jwt.sign({userId, username}, secret, {expiresIn: '7d'})] at clock
    [now]: the library stamps [iat] and [exp = iat + 7d], then signs. *)
Definition jwt_sign (uid uname secret : string) (now : Z) : string :=
  let c := {| userId := uid; username := uname; iat := now;
              exp := Some (now + expiresIn); nbf := None |} in
  jws_encode {| payload := c; signature := hmac secret c |}.

Definition not_yet_valid (c : Claims) (now : Z) : bool :=
  match nbf c with
  | Some t => now <? t
  | None => false
  end.

Definition expired (c : Claims) (now : Z) : bool :=
  match exp c with
  | Some t => t <=? now
  | None => false
  end.

(** [jwt.verify(token, secret, callback)] at clock [now]: the callback's
    [err] is [Invalid], its decoded payload is [Valid].  The token must
    parse, carry the signature the secret gives its payload, be past its
    [nbf] and before its [exp]. *)
Definition jwt_verify (token secret : string) (now : Z) : VerifyResult :=
  match jws_decode token with
  | None => Invalid
  | Some j =>
      if negb (String.eqb (signature j) (hmac secret (payload j))) then Invalid
      else if not_yet_valid (payload j) now then Invalid
      else if expired (payload j) now then Invalid
      else Valid (payload j)
  end.

(** The token the login route issues. *)
Definition issue (uid uname : string) (now : Z) : string :=
  jwt_sign uid uname JWT_SECRET now.

Definition verify (token : string) (now : Z) : VerifyResult :=
  jwt_verify token JWT_SECRET now.

(** *** Request gate *)

(** [authHeader && authHeader.split(' ')[1]] *)
Definition bearer_token (authHeader : option string) : option string :=
  match authHeader with
  | None => None
  | Some h => if String.eqb h EmptyString then Some h else split_space h !! 1%nat
  end.

Definition no_token : Outcome :=
  Sent 401 (error_body "Access denied. No token provided.").

Definition bad_token : Outcome :=
  Sent 403 (error_body "Invalid or expired token").

Definition authenticateToken (now : Z) (req : Request) : Gate :=
  let token := bearer_token (authorization req) in
  if negb (truthy (JStr <$> token)) then
    Reject no_token
  else
    match token with
    | None => Reject no_token
    | Some t =>
        match verify t now with
        | Invalid => Reject bad_token
        | Valid c => Next (set_user req c)
        end
    end.

(** [app.METHOD(path, authenticateToken, handler)] *)
Definition protected (handler : Request → State → Outcome * State)
    (now : Z) (req : Request) (st : State) : Outcome * State :=
  match authenticateToken now req with
  | Reject o => (o, st)
  | Next req' => handler req' st
  end.

(** *** Session store *)

Definition saveSessions (st : State) : State :=
  {| users := users st; sessions := sessions st;
     sessions_file := sessions st; builtins := builtins st |}.

Definition fresh_session : Session :=
  {| recipes := []; basket := Some (Some (JArr [])) |}.

(** What [sessions[userId]] is bound to in a handler: a record of the
    table, the built-in object found under an inherited key, or the value
    of [Object.prototype.basket] found under the key [basket]. *)
Inductive SessionRef :=
| Own (s : Session)
| Inherited (k : string)
| Basket_value (v : JSON).

(** [getUserSession(userId)]: [!sessions[userId]] holds only when the
    table has no such key and inherits nothing truthy under it; then a
    record is made and saved.  Otherwise [sessions[userId]] is returned as
    it is. *)
Definition getUserSession (uid : string) (st : State) : SessionRef * State :=
  match sessions st !! uid with
  | Some s => (Own s, st)
  | None =>
      if inherited uid then (Inherited uid, st)
      else
        match finds_basket uid st with
        | Some v => (Basket_value v, st)
        | None =>
            (Own fresh_session,
             saveSessions {| users := users st;
                             sessions := <[uid := fresh_session]> (sessions st);
                             sessions_file := sessions_file st;
                             builtins := builtins st |})
        end
  end.

(** An assignment to a field of the record [getUserSession] returned
    writes through to [sessions[userId]]. *)
Definition put_session (uid : string) (s : Session) (st : State) : State :=
  {| users := users st;
     sessions := <[uid := s]> (sessions st);
     sessions_file := sessions_file st;
     builtins := builtins st |}.

(** [session.basket = v] on the built-in object found under [k]. *)
Definition put_builtin (k : string) (v : JSVal) (st : State) : State :=
  {| users := users st;
     sessions := sessions st;
     sessions_file := sessions_file st;
     builtins := <[k := v]> (builtins st) |}.

(** [session.basket] read on a record and on a built-in object: the own
    property, else what [Object.prototype] has. *)
Definition session_basket (s : Session) (st : State) : JSVal :=
  match basket s with
  | Some v => v
  | None => prototype_basket st
  end.

Definition builtin_basket (k : string) (st : State) : JSVal :=
  match builtins st !! k with
  | Some v => v
  | None => prototype_basket st
  end.

(** [req.user.userId]; reading it on a request the gate has not annotated
    is a [TypeError]. *)
Definition with_user (req : Request) (st : State)
    (k : string → Outcome * State) : Outcome * State :=
  match user req with
  | Some c => k (userId c)
  | None => (Uncaught TypeError, st)
  end.

(** *** Routes, after the gate *)

Definition invalid_credentials : Outcome :=
  Sent 401 (error_body "Invalid credentials").

(** [bcrypt.compareSync(s, hash)]: the library throws unless both
    arguments are strings. *)
Definition compareSync (s : JSON) (hash : JSVal) : option bool :=
  match s, hash with
  | JStr pw, Some (JStr h) => bcrypt_compare pw h
  | _, _ => None
  end.

(** The login of a user that is not a record of the table but the
    value [v] of [Object.prototype.basket], found under the key [basket]:
    [v.passwordHash] is checked, [v.id] signed, [v.id] and [v.name]
    returned. *)
Definition login_basket_value (now : Z) (p v : JSON) (st : State)
    : Outcome * State :=
  match compareSync p (json_prop "passwordHash" v) with
  | None => (Uncaught LibraryError, st)
  | Some false => (invalid_credentials, st)
  | Some true =>
      match json_prop "id" v with
      | Some (JStr uid) =>
          (Sent 200 (Some (JObj [("token", JStr (issue uid uid now));
                                 ("user", JObj (("id", JStr uid)
                                                :: field "name" (json_prop "name" v)))])),
           st)
      | _ => (Unmodelled, st)
      end
  end.

(** [POST /api/login].  Under an inherited key [user] is a built-in
    object, which is truthy and has no [passwordHash]. *)
Definition login (now : Z) (req : Request) (st : State) : Outcome * State :=
  let username := body_prop "username" (body req) in
  let password := body_prop "password" (body req) in
  if negb (truthy username) || negb (truthy password) then
    (Sent 400 (error_body "Username and password required"), st)
  else
    match username, password with
    | Some (JStr u), Some p =>
        match users st !! toLowerCase u with
        | Some usr =>
            match compareSync p (Some (JStr (passwordHash usr))) with
            | None => (Uncaught LibraryError, st)
            | Some false => (invalid_credentials, st)
            | Some true =>
                let token := issue (id usr) (id usr) now in
                (Sent 200 (Some (JObj [("token", JStr token);
                                       ("user", JObj [("id", JStr (id usr));
                                                      ("name", JStr (name usr))])])),
                 st)
            end
        | None =>
            if inherited (toLowerCase u) then
              (* [bcrypt.compareSync(password, undefined)] *)
              (Uncaught LibraryError, st)
            else
              match finds_basket (toLowerCase u) st with
              | Some v => login_basket_value now p v st
              | None => (invalid_credentials, st)
              end
        end
    | _, _ => (Uncaught TypeError, st)   (* no [toLowerCase] on a non-string *)
    end.

(** [GET /api/verify]: [users[req.user.userId]], then [user.id] and
    [user.name] read on whatever the lookup gave.  Reading them fails on
    [undefined] and [null] only. *)
Definition get_verify (req : Request) (st : State) : Outcome * State :=
  with_user req st (λ uid,
    match users st !! uid with
    | Some usr => (Sent 200 (Some (user_body usr)), st)
    | None =>
        if inherited uid then (Sent 200 (Some (builtin_body uid)), st)
        else if String.eqb uid "basket" then
          match prototype_basket st with
          | None | Some JNull => (Uncaught TypeError, st)
          | Some v =>
              (Sent 200 (Some (JObj [("user",
                                      JObj (field "id" (json_prop "id" v)
                                            ++ field "name" (json_prop "name" v)))])),
               st)
          end
        else (Uncaught TypeError, st)
    end).

(** [GET /api/recipes]; a built-in object has no [recipes]. *)
Definition get_recipes (req : Request) (st : State) : Outcome * State :=
  with_user req st (λ uid,
    let '(session, st1) := getUserSession uid st in
    match session with
    | Own s => (Sent 200 (Some (JArr (to_json <$> recipes s))), st1)
    | Inherited _ => (Sent 200 None, st1)
    | Basket_value v => (Sent 200 (json_prop "recipes" v), st1)
    end).

(** The update-or-add of [POST /api/recipes] on the recipe array. *)
Definition upsert (recipe : Body) (rs : list Body) : list Body :=
  let existingIndex :=
    findIndex (λ r, strict_eq (body_prop "id" r) (body_prop "id" recipe)) rs in
  if 0 <=? existingIndex then <[Z.to_nat existingIndex := recipe]> rs
  else rs ++ [recipe].

(** [session.recipes.findIndex(...)] and [session.recipes.filter(...)] on
    the value found under [basket]: a [TypeError] unless [v.recipes] is an
    array. *)
Definition recipes_of_basket_value (v : JSON) : Outcome :=
  match json_prop "recipes" v with
  | Some (JArr _) => Unmodelled
  | _ => Uncaught TypeError
  end.

(** [POST /api/recipes]; on a built-in object [session.recipes.findIndex]
    is a call on [undefined]. *)
Definition post_recipes (req : Request) (st : State) : Outcome * State :=
  with_user req st (λ uid,
    let '(session, st1) := getUserSession uid st in
    let recipe := body req in
    match session with
    | Own s =>
        let session' := {| recipes := upsert recipe (recipes s);
                           basket := basket s |} in
        (Sent 200 (Some (JObj [("success", JBool true); ("recipe", to_json recipe)])),
         saveSessions (put_session uid session' st1))
    | Inherited _ => (Uncaught TypeError, st1)
    | Basket_value v => (recipes_of_basket_value v, st1)
    end).

(** [DELETE /api/recipes/:id]; on a built-in object [session.recipes.filter]
    is a call on [undefined]. *)
Definition delete_recipes (req : Request) (st : State) : Outcome * State :=
  with_user req st (λ uid,
    let '(session, st1) := getUserSession uid st in
    match session with
    | Own s =>
        let kept :=
          filter (λ r, strict_eq (body_prop "id" r) (Some (JStr (params_id req))) = false)
                 (recipes s) in
        let session' := {| recipes := kept; basket := basket s |} in
        (Sent 200 success_body, saveSessions (put_session uid session' st1))
    | Inherited _ => (Uncaught TypeError, st1)
    | Basket_value v => (recipes_of_basket_value v, st1)
    end).

(** [GET /api/basket].  The value found under [basket] reads its own
    [basket] field when it is an object that has one, and otherwise
    inherits [Object.prototype.basket], which is itself. *)
Definition get_basket (req : Request) (st : State) : Outcome * State :=
  with_user req st (λ uid,
    let '(session, st1) := getUserSession uid st in
    match session with
    | Own s => (Sent 200 (session_basket s st1), st1)
    | Inherited k => (Sent 200 (builtin_basket k st1), st1)
    | Basket_value v =>
        (Sent 200 (match json_prop "basket" v with
                   | Some x => Some x
                   | None => Some v
                   end), st1)
    end).

(** [session.basket = v; saveSessions(); res.json({success: true})].  The
    assignment to a property of a primitive value is dropped (the file is
    not in strict mode). *)
Definition assign_basket (uid : string) (session : SessionRef) (v : JSVal)
    (st : State) : Outcome * State :=
  match session with
  | Own s =>
      (Sent 200 success_body,
       saveSessions (put_session uid {| recipes := recipes s; basket := Some v |} st))
  | Inherited k => (Sent 200 success_body, saveSessions (put_builtin k v st))
  | Basket_value p =>
      if is_primitive p then (Sent 200 success_body, saveSessions st)
      else (Unmodelled, st)
  end.

(** [POST /api/basket] *)
Definition post_basket (req : Request) (st : State) : Outcome * State :=
  with_user req st (λ uid,
    let '(session, st1) := getUserSession uid st in
    assign_basket uid session (read_basket (body req) st1) st1).

(** [DELETE /api/basket] *)
Definition delete_basket (req : Request) (st : State) : Outcome * State :=
  with_user req st (λ uid,
    let '(session, st1) := getUserSession uid st in
    assign_basket uid session (Some (JArr [])) st1).

(** *** The session operations as a script *)

(** Two recipes carry the same id when [===] says so. *)
Definition same_id (r r' : Body) : bool :=
  strict_eq (body_prop "id" r) (body_prop "id" r').


(** The record of a user, read off the table: the one the table has, the
    empty one for a user without a record. *)
Definition current_session (uid : string) (st : State) : Session :=
  default fresh_session (sessions st !! uid).

(** [sessions[userId]] is a record, now or once [getUserSession] has made
    it: the table has the key or inherits nothing truthy under it. *)
Definition ordinary (uid : string) (st : State) : bool :=
  match sessions st !! uid with
  | Some _ => true
  | None => vacant uid st
  end.

(** [sessions[userId]] is a built-in object: the table has no such key
    and the key is a name every object inherits. *)
Definition alien (uid : string) (st : State) : bool :=
  match sessions st !! uid with
  | Some _ => false
  | None => inherited uid
  end.

(** [sessions[userId]] is a record or a built-in object. *)
Definition addressable (uid : string) (st : State) : bool :=
  ordinary uid st || inherited uid.

(** A request of [uid] leaves [Object.prototype] as it is and acts on a
    record or on a built-in function. *)
Definition contained (uid : string) (st : State) : bool :=
  ordinary uid st || (inherited uid && negb (String.eqb uid "__proto__")).

Definition is_list (v : JSVal) : bool :=
  match v with
  | Some (JArr _) => true
  | _ => false
  end.

(** A request of an authenticated user to one of the session routes. *)
Inductive Op :=
| GetRecipes
| SaveRecipe (recipe : Body)
| DeleteRecipe (rid : string)
| GetBasket
| UpdateBasket (b : Body)
| ClearBasket.

Definition annotated (c : Claims) (b : Body) (rid : string) : Request :=
  {| authorization := None; body := b; params_id := rid; user := Some c |}.

Definition run_op (c : Claims) (op : Op) (st : State) : Outcome * State :=
  match op with
  | GetRecipes => get_recipes (annotated c (BObj []) EmptyString) st
  | SaveRecipe r => post_recipes (annotated c r EmptyString) st
  | DeleteRecipe rid => delete_recipes (annotated c (BObj []) rid) st
  | GetBasket => get_basket (annotated c (BObj []) EmptyString) st
  | UpdateBasket b => post_basket (annotated c b EmptyString) st
  | ClearBasket => delete_basket (annotated c (BObj []) EmptyString) st
  end.

Fixpoint run_ops (script : list (Claims * Op)) (st : State) : State :=
  match script with
  | [] => st
  | (c, op) :: rest => run_ops rest (run_op c op st).2
  end.

(** An [UpdateBasket] whose body carries an array under [basket]. *)
Definition list_valued (op : Op) : bool :=
  match op with
  | UpdateBasket b => is_list (body_prop "basket" b)
  | _ => true
  end.

Definition status_of (o : Outcome) : option Z :=
  match o with
  | Sent s _ => Some s
  | _ => None
  end.

(** What one operation of a script does to the record of the user who
    sends it, when [Object.prototype.basket] is [proto]. *)
Definition step_session (proto : JSVal) (op : Op) (s : Session) : Session :=
  match op with
  | GetRecipes | GetBasket => s
  | SaveRecipe r => {| recipes := upsert r (recipes s); basket := basket s |}
  | DeleteRecipe rid =>
      {| recipes :=
           filter (λ r, strict_eq (body_prop "id" r) (Some (JStr rid)) = false)
                  (recipes s);
         basket := basket s |}
  | UpdateBasket b =>
      {| recipes := recipes s; basket := Some (inherit_basket b proto) |}
  | ClearBasket => {| recipes := recipes s; basket := Some (Some (JArr [])) |}
  end.

(** The basket an operation stores, if it stores one. *)
Definition stored_by (proto : JSVal) (op : Op) : option JSVal :=
  match op with
  | UpdateBasket b => Some (inherit_basket b proto)
  | ClearBasket => Some (Some (JArr []))
  | _ => None
  end.

(** The basket of [uid] after a script: the one its last [UpdateBasket] or
    [ClearBasket] stored, [init] when it sent none. *)
Fixpoint last_stored (uid : string) (proto : JSVal)
    (script : list (Claims * Op)) (init : JSVal) : JSVal :=
  match script with
  | [] => init
  | (c, op) :: rest =>
      last_stored uid proto rest
        (if decide (userId c = uid) then default init (stored_by proto op)
         else init)
  end.

(** The basket [GET /api/basket] reads for [uid]: that of the record, or
    that of the built-in object. *)
Definition basket_of (uid : string) (st : State) : JSVal :=
  if ordinary uid st then session_basket (current_session uid st) st
  else builtin_basket uid st.

(** The state after a route has assigned [s] to the record of [uid] and
    called [saveSessions]. *)
Definition written (uid : string) (s : Session) (st : State) : State :=
  {| users := users st;
     sessions := <[uid := s]> (sessions st);
     sessions_file := <[uid := s]> (sessions st);
     builtins := builtins st |}.

(** No request has left a truthy value under [Object.prototype.basket]. *)
Definition pristine (st : State) : Prop :=
  truthy (prototype_basket st) = false.

(** Every account sits under its own [id]. *)
Definition well_keyed (us : gmap string User) : Prop :=
  ∀ k u, us !! k = Some u → id u = k.

(** The users on whose behalf a script acts. *)
Definition senders (script : list (Claims * Op)) : gset string :=
  list_to_set ((λ e, userId e.1) <$> script).

(** ** Strings and arrays: basic facts *)

Lemma split_space_no_space (s : string) :
  no_space s = true → split_space s = [s].
Proof.
  induction s as [|c r IH]; simpl; [done|].
  destruct (Ascii.eqb c " "); simpl; [done|].
  intros Hr. by rewrite (IH Hr).
Qed.

Lemma split_space_prefix (scheme t : string) :
  no_space scheme = true →
  split_space (scheme +:+ String " " t) = scheme :: split_space t.
Proof.
  induction scheme as [|c r IH]; simpl; [done|].
  destruct (Ascii.eqb c " "); simpl; [done|].
  intros Hr. by rewrite (IH Hr).
Qed.

Lemma bearer_token_scheme (scheme t : string) :
  no_space scheme = true → no_space t = true →
  bearer_token (Some (scheme +:+ String " " t)) = Some t.
Proof.
  intros Hs Ht. unfold bearer_token.
  destruct (String.eqb_spec (scheme +:+ String " " t) EmptyString) as [E|_].
  - by destruct scheme.
  - by rewrite (split_space_prefix _ _ Hs), (split_space_no_space _ Ht).
Qed.

Lemma findIndex_lower {A : Type} (p : A → bool) (xs : list A) :
  -1 <= findIndex p xs.
Proof.
  induction xs as [|x rest IH]; simpl; [lia|].
  destruct (p x); [lia|]. destruct (Z.ltb_spec (findIndex p rest) 0); lia.
Qed.



Lemma filter_all {A : Type} (P : A → Prop) `{∀ x, Decision (P x)} (xs : list A) :
  (∀ x, x ∈ xs → P x) → filter P xs = xs.
Proof.
  induction xs as [|x rest IH]; intros Hall; [done|].
  rewrite filter_cons_True by (apply Hall; left). f_equal.
  apply IH. intros y Hy. apply Hall. by right.
Qed.


Lemma upsert_cons (r x : Body) (rs : list Body) :
  upsert r (x :: rs) = if same_id x r then r :: rs else x :: upsert r rs.
Proof.
  unfold upsert, same_id. simpl.
  destruct (strict_eq (body_prop "id" x) (body_prop "id" r)); [done|].
  set (i := findIndex _ rs). pose proof (findIndex_lower _ rs : -1 <= i) as Hi.
  destruct (Z.ltb_spec i 0) as [Hneg|Hpos].
  - replace (0 <=? -1) with false by done.
    destruct (Z.leb_spec 0 i); [lia|done].
  - destruct (Z.leb_spec 0 (i + 1)); [|lia].
    destruct (Z.leb_spec 0 i); [|lia].
    replace (Z.to_nat (i + 1)) with (S (Z.to_nat i)) by lia. done.
Qed.

(** ** Token service *)

Lemma verify_issue (uid uname : string) (now now' : Z) :
  now <= now' < now + expiresIn →
  verify (issue uid uname now) now' =
    Valid {| userId := uid; username := uname; iat := now;
             exp := Some (now + expiresIn); nbf := None |}.
Proof.
  intros Hwin. unfold verify, issue, jwt_verify, jwt_sign.
  rewrite jws_decode_encode. simpl.
  rewrite String.eqb_refl. simpl.
  unfold expired, not_yet_valid. simpl.
  destruct (Z.leb_spec (now + expiresIn) now'); [lia|done].
Qed.

Lemma verify_Valid_inv (token : string) (now : Z) (c : Claims) :
  verify token now = Valid c →
  ∃ j, jws_decode token = Some j ∧ payload j = c
       ∧ signature j = hmac JWT_SECRET c
       ∧ expired c now = false ∧ not_yet_valid c now = false.
Proof.
  unfold verify, jwt_verify. destruct (jws_decode token) as [j|]; [|done].
  destruct (String.eqb_spec (signature j) (hmac JWT_SECRET (payload j))) as [Hs|];
    simpl; [|done].
  destruct (not_yet_valid (payload j) now) eqn:Hn; [done|].
  destruct (expired (payload j) now) eqn:He; [done|].
  intros [= <-]. by exists j.
Qed.

(** C1. A token issued for [uid] and [uname] verifies, at once and for the
    seven days that follow, to the payload it was issued with; a token
    that does not parse, whose signature is not the one the secret gives
    its payload, or whose expiry time is at or before the clock, verifies
    to [Invalid]. *)
Theorem token_roundtrip_and_rejection :
  (∀ (uid uname : string) (now : Z),
      ∃ c, verify (issue uid uname now) now = Valid c
           ∧ userId c = uid ∧ username c = uname)
  ∧ (∀ (uid uname : string) (now now' : Z),
      now <= now' < now + expiresIn →
      ∃ c, verify (issue uid uname now) now' = Valid c
           ∧ userId c = uid ∧ username c = uname)
  ∧ (∀ (token : string) (now : Z),
      jws_decode token = None → verify token now = Invalid)
  ∧ (∀ (token : string) (now : Z) (j : Jws),
      jws_decode token = Some j →
      signature j ≠ hmac JWT_SECRET (payload j) →
      verify token now = Invalid)
  ∧ (∀ (token : string) (now : Z) (j : Jws) (t : Z),
      jws_decode token = Some j →
      exp (payload j) = Some t → t <= now →
      verify token now = Invalid).
Proof.
  split_and!.
  - intros uid uname now. eexists.
    split; [apply verify_issue; unfold expiresIn; lia | done].
  - intros uid uname now now' Hwin. eexists.
    split; [by apply verify_issue | done].
  - intros token now Hd. unfold verify, jwt_verify. by rewrite Hd.
  - intros token now j Hd Hsig. unfold verify, jwt_verify. rewrite Hd.
    by destruct (String.eqb_spec (signature j) (hmac JWT_SECRET (payload j))).
  - intros token now j t Hd He Hle. unfold verify, jwt_verify. rewrite Hd.
    destruct (negb _); [done|]. destruct (not_yet_valid _ _); [done|].
    unfold expired. rewrite He.
    by destruct (Z.leb_spec t now); [|lia].
Qed.

(** ** Request gate *)

Lemma authenticateToken_cases (now : Z) (req : Request) :
  authenticateToken now req =
    match bearer_token (authorization req) with
    | None => Reject no_token
    | Some t =>
        if String.eqb t EmptyString then Reject no_token
        else match verify t now with
             | Invalid => Reject bad_token
             | Valid c => Next (set_user req c)
             end
    end.
Proof.
  unfold authenticateToken.
  destruct (bearer_token (authorization req)) as [t|]; simpl; [|done].
  by destruct (String.eqb t EmptyString).
Qed.

(** C2. A request without an [Authorization] header, or with one whose second
    space-separated piece is missing or empty, is answered 401; a request
    whose token fails verification is answered 403; otherwise the gate
    hands on the same request with the decoded payload attached.  A
    rejection leaves the server state as it was, and an accepted request
    reaches the handler with the state the gate was given. *)
Theorem gate_outcomes (now : Z) (req : Request) :
  (authorization req = None → authenticateToken now req = Reject no_token)
  ∧ (∀ h, authorization req = Some h → no_space h = true →
       authenticateToken now req = Reject no_token)
  ∧ (∀ h, authorization req = Some h →
       split_space h !! 1%nat = None ∨ split_space h !! 1%nat = Some EmptyString →
       authenticateToken now req = Reject no_token)
  ∧ (∀ h t, authorization req = Some h →
       split_space h !! 1%nat = Some t → t ≠ EmptyString →
       verify t now = Invalid →
       authenticateToken now req = Reject bad_token)
  ∧ (∀ h t c, authorization req = Some h →
       split_space h !! 1%nat = Some t → t ≠ EmptyString →
       verify t now = Valid c →
       authenticateToken now req = Next (set_user req c)
       ∧ authorization (set_user req c) = authorization req
       ∧ body (set_user req c) = body req
       ∧ params_id (set_user req c) = params_id req
       ∧ user (set_user req c) = Some c)
  ∧ (∀ handler st o, authenticateToken now req = Reject o →
       protected handler now req st = (o, st))
  ∧ (∀ handler st req', authenticateToken now req = Next req' →
       protected handler now req st = handler req' st).
Proof.
  assert (Hsplit : ∀ h t, split_space h !! 1%nat = Some t → t ≠ EmptyString →
                          bearer_token (Some h) = Some t).
  { intros h t Ht Hne. unfold bearer_token.
    destruct (String.eqb_spec h EmptyString) as [->|]; [|done].
    by simpl in Ht. }
  rewrite authenticateToken_cases. split_and!.
  - by intros ->.
  - intros h -> Hh. unfold bearer_token.
    destruct (String.eqb_spec h EmptyString) as [->|]; [done|].
    by rewrite (split_space_no_space _ Hh).
  - intros h -> Hh. unfold bearer_token.
    destruct (String.eqb_spec h EmptyString) as [->|]; [done|].
    by destruct Hh as [-> | ->].
  - intros h t -> Ht Hne Hv. rewrite (Hsplit _ _ Ht Hne), Hv.
    by destruct (String.eqb_spec t EmptyString).
  - intros h t c Ha Ht Hne Hv. rewrite Ha, (Hsplit _ _ Ht Hne), Hv.
    split; [|done]. by destruct (String.eqb_spec t EmptyString).
  - intros handler st o Ho. unfold protected.
    by rewrite authenticateToken_cases, Ho.
  - intros handler st req' Ho. unfold protected.
    by rewrite authenticateToken_cases, Ho.
Qed.


(** ** Further properties: tokens and gate *)

Lemma issued_token_lifetime_aux (uid uname : string) (now now' : Z) :
  now' < now + 604800 →
  verify (issue uid uname now) now' =
    Valid {| userId := uid; username := uname; iat := now;
             exp := Some (now + expiresIn); nbf := None |}.
Proof.
  intros Hwin. unfold verify, issue, jwt_verify, jwt_sign.
  rewrite jws_decode_encode. simpl. rewrite String.eqb_refl. simpl.
  unfold expired, not_yet_valid, expiresIn. simpl.
  destruct (Z.leb_spec (now + 7 * 24 * 60 * 60) now'); [lia|done].
Qed.

(** X1. A token issued at [now] verifies to its payload at every clock
    before [now] plus seven days and is [Invalid] from that second on. *)
Theorem issued_token_lifetime (uid uname : string) (now now' : Z) :
  verify (issue uid uname now) now' =
    if now' <? now + 604800 then
      Valid {| userId := uid; username := uname; iat := now;
               exp := Some (now + 604800); nbf := None |}
    else Invalid.
Proof.
  unfold verify, issue, jwt_verify, jwt_sign.
  rewrite jws_decode_encode. simpl. rewrite String.eqb_refl. simpl.
  unfold expired, not_yet_valid, expiresIn. simpl.
  destruct (Z.leb_spec (now + 7 * 24 * 60 * 60) now'),
           (Z.ltb_spec now' (now + 604800)); (done || lia).
Qed.

(** X2. The gate calls the handler only for a request whose header has a
    non-empty second piece that parses as a token, carries the signature
    the secret gives its payload, is not expired and not ahead of its
    [nbf]; the request handed on is the given one with that payload as
    [user]. *)
Theorem gate_admits_only_signed (now : Z) (req req' : Request) :
  authenticateToken now req = Next req' →
  ∃ h t j,
    authorization req = Some h
    ∧ split_space h !! 1%nat = Some t ∧ t ≠ EmptyString
    ∧ jws_decode t = Some j
    ∧ signature j = hmac JWT_SECRET (payload j)
    ∧ (∀ e, exp (payload j) = Some e → now < e)
    ∧ (∀ n, nbf (payload j) = Some n → n <= now)
    ∧ req' = set_user req (payload j).
Proof.
  rewrite authenticateToken_cases. unfold bearer_token.
  destruct (authorization req) as [h|] eqn:Hh; [|done].
  destruct (String.eqb_spec h EmptyString) as [->|Hne]; [done|].
  destruct (split_space h !! 1%nat) as [t|] eqn:Ht; [|done].
  destruct (String.eqb_spec t EmptyString) as [->|Hnt]; [done|].
  destruct (verify t now) as [c|] eqn:Hv; [|done].
  intros [= <-].
  apply verify_Valid_inv in Hv as (j & Hj & <- & Hsig & Hexp & Hnbf).
  exists h, t, j. split_and!; try done.
  - intros e He. unfold expired in Hexp. rewrite He in Hexp.
    by destruct (Z.leb_spec e now).
  - intros n Hn. unfold not_yet_valid in Hnbf. rewrite Hn in Hnbf.
    by destruct (Z.ltb_spec now n).
Qed.

(** X3. The gate does not look at the scheme word: whatever space-free
    word stands before the first space, even none, and whatever follows a
    second space, the token is the piece between them and the outcome is
    that of [Bearer] followed by it. *)
Theorem gate_ignores_scheme (now : Z) (scheme t rest : string)
    (b : Body) (rid : string) (u : option Claims) :
  no_space scheme = true → no_space t = true →
  bearer_token (Some (scheme +:+ String " " t)) = Some t
  ∧ bearer_token (Some (scheme +:+ String " " (t +:+ String " " rest))) = Some t
  ∧ match authenticateToken now (mkRequest (Some (scheme +:+ String " " t)) b rid u),
          authenticateToken now (mkRequest (Some ("Bearer " +:+ t)) b rid u) with
    | Reject o1, Reject o2 => o1 = o2
    | Next r1, Next r2 => user r1 = user r2 ∧ body r1 = body r2
                          ∧ params_id r1 = params_id r2
    | _, _ => False
    end.
Proof.
  intros Hs Ht.
  assert (H1 : bearer_token (Some (scheme +:+ String " " t)) = Some t)
    by by apply bearer_token_scheme.
  assert (H2 : bearer_token (Some ("Bearer" +:+ String " " t)) = Some t)
    by by apply bearer_token_scheme.
  split_and!; [done| |].
  - unfold bearer_token.
    destruct (String.eqb_spec (scheme +:+ String " " (t +:+ String " " rest))
                              EmptyString) as [E|_]; [by destruct scheme|].
    rewrite (split_space_prefix _ _ Hs), (split_space_prefix _ _ Ht). done.
  - rewrite !authenticateToken_cases. cbn [authorization].
    change (String.append "Bearer " t) with ("Bearer" +:+ String " " t).
    rewrite H1, H2. destruct (String.eqb t EmptyString); [done|].
    by destruct (verify t now).
Qed.

(** ** Tables and what they inherit *)

Lemma finds_basket_pristine (k : string) (st : State) :
  pristine st → finds_basket k st = None.
Proof.
  unfold pristine, finds_basket. intros Hp.
  destruct (String.eqb k "basket"); [|done].
  destruct (prototype_basket st) as [v|]; [|done]. by rewrite Hp.
Qed.

Lemma finds_basket_truthy (k : string) (st : State) (v : JSON) :
  finds_basket k st = Some v →
  k = "basket" ∧ prototype_basket st = Some v ∧ truthy (Some v) = true.
Proof.
  unfold finds_basket. destruct (String.eqb_spec k "basket") as [->|]; [|done].
  destruct (prototype_basket st) as [w|]; [|done].
  destruct (truthy (Some w)) eqn:Ht; [|done]. by intros [= ->].
Qed.

Lemma vacant_spec (k : string) (st : State) :
  vacant k st = true ↔ inherited k = false ∧ finds_basket k st = None.
Proof.
  unfold vacant. destruct (inherited k), (finds_basket k st); split; try done;
    by intros [? ?].
Qed.

Lemma vacant_pristine (k : string) (st : State) :
  pristine st → vacant k st = negb (inherited k).
Proof.
  intros Hp. unfold vacant. rewrite finds_basket_pristine by done.
  by destruct (inherited k).
Qed.

(** ** Login *)

Lemma truthy_JStr (u : string) : u ≠ EmptyString → truthy (Some (JStr u)) = true.
Proof. intros Hu. simpl. by destruct (String.eqb_spec u EmptyString). Qed.

Lemma login_unknown_user (now : Z) (req : Request) (st : State)
    (u : string) (p : JSON) :
  body_prop "username" (body req) = Some (JStr u) → u ≠ EmptyString →
  body_prop "password" (body req) = Some p → truthy (Some p) = true →
  users st !! toLowerCase u = None → vacant (toLowerCase u) st = true →
  login now req st = (invalid_credentials, st).
Proof.
  intros Hu Hne Hp Htp Hmiss [Hplain Hnone]%vacant_spec. unfold login.
  rewrite Hu, Hp, (truthy_JStr _ Hne), Htp. simpl.
  by rewrite Hmiss, Hplain, Hnone.
Qed.

Lemma login_inherited_name (now : Z) (req : Request) (st : State)
    (u : string) (p : JSON) :
  body_prop "username" (body req) = Some (JStr u) → u ≠ EmptyString →
  body_prop "password" (body req) = Some p → truthy (Some p) = true →
  users st !! toLowerCase u = None → inherited (toLowerCase u) = true →
  login now req st = (Uncaught LibraryError, st).
Proof.
  intros Hu Hne Hp Htp Hmiss Hinh. unfold login.
  rewrite Hu, Hp, (truthy_JStr _ Hne), Htp. simpl. by rewrite Hmiss, Hinh.
Qed.

Lemma login_wrong_password (now : Z) (req : Request) (st : State)
    (u pw : string) (usr : User) :
  body_prop "username" (body req) = Some (JStr u) → u ≠ EmptyString →
  body_prop "password" (body req) = Some (JStr pw) → pw ≠ EmptyString →
  users st !! toLowerCase u = Some usr →
  bcrypt_compare pw (passwordHash usr) = Some false →
  login now req st = (invalid_credentials, st).
Proof.
  intros Hu Hne Hp Hnp Hhit Hcmp. unfold login.
  rewrite Hu, Hp, (truthy_JStr _ Hne), (truthy_JStr _ Hnp). simpl.
  by rewrite Hhit, Hcmp.
Qed.

Lemma login_password_not_string (now : Z) (req : Request) (st : State)
    (u : string) (p : JSON) (usr : User) :
  body_prop "username" (body req) = Some (JStr u) → u ≠ EmptyString →
  body_prop "password" (body req) = Some p → truthy (Some p) = true →
  (∀ s, p ≠ JStr s) →
  users st !! toLowerCase u = Some usr →
  login now req st = (Uncaught LibraryError, st).
Proof.
  intros Hu Hne Hp Htp Hns Hhit. unfold login.
  rewrite Hu, Hp, (truthy_JStr _ Hne), Htp. simpl. rewrite Hhit.
  destruct p as [| ? | ? | s | ? | ?]; try done. by destruct (Hns s).
Qed.

Lemma login_issues_token (now : Z) (req : Request) (st : State)
    (u pw : string) (usr : User) :
  body_prop "username" (body req) = Some (JStr u) → u ≠ EmptyString →
  body_prop "password" (body req) = Some (JStr pw) → pw ≠ EmptyString →
  users st !! toLowerCase u = Some usr →
  bcrypt_compare pw (passwordHash usr) = Some true →
  login now req st =
    (Sent 200 (Some (JObj [("token", JStr (issue (id usr) (id usr) now));
                           ("user", JObj [("id", JStr (id usr));
                                          ("name", JStr (name usr))])])),
     st).
Proof.
  intros Hu Hne Hp Hnp Hhit Hcmp. unfold login.
  rewrite Hu, Hp, (truthy_JStr _ Hne), (truthy_JStr _ Hnp). simpl.
  by rewrite Hhit, Hcmp.
Qed.

(** A login that answers 200 found an own account under the lowercased
    username and answers with its id and name. *)
Lemma login_success_inv (now : Z) (req : Request) (st : State) (json : JSVal) :
  pristine st →
  (login now req st).1 = Sent 200 json →
  ∃ u usr,
    body_prop "username" (body req) = Some (JStr u)
    ∧ users st !! toLowerCase u = Some usr
    ∧ json = Some (JObj [("token", JStr (issue (id usr) (id usr) now));
                         ("user", JObj [("id", JStr (id usr));
                                        ("name", JStr (name usr))])]).
Proof.
  intros Hpr. unfold login. destruct (negb _ || negb _); [done|].
  destruct (body_prop "username" (body req)) as [[| ? | ? | u | ? | ?]|];
    try done.
  destruct (body_prop "password" (body req)) as [p|]; [|done].
  destruct (users st !! toLowerCase u) as [usr|] eqn:Hk.
  - destruct (compareSync p (Some (JStr (passwordHash usr)))) as [[]|];
      try done.
    simpl. intros [= <-]. by exists u, usr.
  - rewrite finds_basket_pristine by done.
    by destruct (inherited (toLowerCase u)).
Qed.

Lemma login_basket_value_state (now : Z) (p v : JSON) (st : State) :
  (login_basket_value now p v st).2 = st
  ∧ status_of (login_basket_value now p v st).1 ≠ Some 400.
Proof.
  unfold login_basket_value.
  destruct (compareSync p (json_prop "passwordHash" v)) as [[]|]; try done.
  by destruct (json_prop "id" v) as [[| ? | ? | ? | ? | ?]|].
Qed.

Lemma login_leaves_state (now : Z) (req : Request) (st : State) :
  (login now req st).2 = st.
Proof.
  unfold login. destruct (negb _ || negb _); [done|].
  destruct (body_prop "username" (body req)) as [[| ? | ? | u | ? | ?]|];
    try done.
  destruct (body_prop "password" (body req)) as [pw|]; [|done].
  destruct (users st !! toLowerCase u) as [usr|].
  - by destruct (compareSync pw (Some (JStr (passwordHash usr)))) as [[]|].
  - destruct (inherited (toLowerCase u)); [done|].
    destruct (finds_basket (toLowerCase u) st); [|done].
    apply login_basket_value_state.
Qed.

Lemma login_not_400 (now : Z) (req : Request) (st : State) :
  truthy (body_prop "username" (body req)) = true →
  truthy (body_prop "password" (body req)) = true →
  status_of (login now req st).1 ≠ Some 400.
Proof.
  intros Hu Hp. unfold login. rewrite Hu, Hp. simpl.
  destruct (body_prop "username" (body req)) as [[| ? | ? | u | ? | ?]|];
    try done.
  destruct (body_prop "password" (body req)) as [pw|]; [|done].
  destruct (users st !! toLowerCase u) as [usr|].
  - by destruct (compareSync pw (Some (JStr (passwordHash usr)))) as [[]|].
  - destruct (inherited (toLowerCase u)); [done|].
    destruct (finds_basket (toLowerCase u) st); [|done].
    apply login_basket_value_state.
Qed.

(** C3. With both fields present, login answers the same 401 for a
    username the table does not have and for a password that
    [bcrypt.compareSync] finds wrong, provided the password is a string
    and the table inherits nothing under the lowercased username.
    Otherwise the two cases come apart.  A password that is not a string
    is answered 401 for a username the table does not have and ends in
    the exception [bcrypt.compareSync] throws for an account that exists,
    so the caller can tell which usernames exist.  A username that
    lowercases to a name every object inherits ends in that exception
    whatever the password, and a username that is not a string in a
    [TypeError]. *)
Theorem login_distinguishes_accounts :
  (∀ now st req u pw,
     body_prop "username" (body req) = Some (JStr u) → u ≠ EmptyString →
     body_prop "password" (body req) = Some (JStr pw) → pw ≠ EmptyString →
     (users st !! toLowerCase u = None ∧ vacant (toLowerCase u) st = true)
     ∨ (∃ usr, users st !! toLowerCase u = Some usr
               ∧ bcrypt_compare pw (passwordHash usr) = Some false) →
     login now req st = (Sent 401 (error_body "Invalid credentials"), st))
  ∧ (∀ now st req u p,
       body_prop "username" (body req) = Some (JStr u) → u ≠ EmptyString →
       body_prop "password" (body req) = Some p → truthy (Some p) = true →
       (∀ s, p ≠ JStr s) →
       (users st !! toLowerCase u = None → vacant (toLowerCase u) st = true →
        login now req st = (Sent 401 (error_body "Invalid credentials"), st))
       ∧ (∀ usr, users st !! toLowerCase u = Some usr →
          login now req st = (Uncaught LibraryError, st)))
  ∧ (∀ now st req u p,
       body_prop "username" (body req) = Some (JStr u) → u ≠ EmptyString →
       body_prop "password" (body req) = Some p → truthy (Some p) = true →
       users st !! toLowerCase u = None → inherited (toLowerCase u) = true →
       login now req st = (Uncaught LibraryError, st))
  ∧ (∀ now st req v,
       body_prop "username" (body req) = Some v → truthy (Some v) = true →
       (∀ u, v ≠ JStr u) →
       truthy (body_prop "password" (body req)) = true →
       login now req st = (Uncaught TypeError, st)).
Proof.
  split_and!.
  - intros now st req u pw Hu Hne Hp Hnp [[Hmiss Hvac]|(usr & Hhit & Hcmp)].
    + apply (login_unknown_user now req st u (JStr pw)); try done.
      by apply truthy_JStr.
    + by apply (login_wrong_password now req st u pw usr).
  - intros now st req u p Hu Hne Hp Htp Hns. split.
    + intros Hmiss Hvac. by apply (login_unknown_user now req st u p).
    + intros usr Hhit. by apply (login_password_not_string now req st u p usr).
  - intros now st req u p. apply login_inherited_name.
  - intros now st req v Hv Htv Hns Htp. unfold login.
    rewrite Hv, Htv, Htp. simpl.
    destruct v as [| ? | ? | u | ? | ?]; try done;
      try (by destruct (Hns u));
      by destruct (body_prop "password" (body req)).
Qed.

(** ** Further properties: login *)

(** X4. Login does not look at the case of the username: two requests with
    the same password whose usernames agree once lowercased receive the
    same answer. *)
Theorem login_ignores_case (now : Z) (req1 req2 : Request) (st : State)
    (u1 u2 : string) :
  body_prop "username" (body req1) = Some (JStr u1) →
  body_prop "username" (body req2) = Some (JStr u2) →
  body_prop "password" (body req1) = body_prop "password" (body req2) →
  toLowerCase u1 = toLowerCase u2 →
  login now req1 st = login now req2 st.
Proof.
  intros H1 H2 Hp Hlow. unfold login. rewrite H1, H2, Hp, Hlow.
  assert (truthy (Some (JStr u1)) = truthy (Some (JStr u2))) as ->; [|done].
  simpl. f_equal.
  destruct (String.eqb_spec u1 EmptyString) as [->|N1],
           (String.eqb_spec u2 EmptyString) as [->|N2]; try done.
  - destruct N2. apply toLowerCase_empty. rewrite <- Hlow.
    by apply toLowerCase_empty.
  - destruct N1. apply toLowerCase_empty. rewrite Hlow.
    by apply toLowerCase_empty.
Qed.

(** X5. Login answers 400 exactly when the username or the password is
    missing or falsy, and whatever it answers it leaves the tables as they
    were. *)
Theorem login_required_fields (now : Z) (req : Request) (st : State) :
  (status_of (login now req st).1 = Some 400
   ↔ truthy (body_prop "username" (body req)) = false
     ∨ truthy (body_prop "password" (body req)) = false)
  ∧ (truthy (body_prop "username" (body req)) = false
     ∨ truthy (body_prop "password" (body req)) = false →
     (login now req st).1 = Sent 400 (error_body "Username and password required"))
  ∧ (login now req st).2 = st.
Proof.
  split_and!; [| |apply login_leaves_state].
  - split.
    + intros H400.
      destruct (truthy (body_prop "username" (body req))) eqn:Hu; [|by left].
      destruct (truthy (body_prop "password" (body req))) eqn:Hp; [|by right].
      by destruct (login_not_400 now req st Hu Hp).
    + unfold login. by intros [-> | ->]; rewrite ?orb_true_r.
  - unfold login. by intros [-> | ->]; rewrite ?orb_true_r.
Qed.

(** X6. While nothing truthy is stored under [Object.prototype.basket],
    the token a successful login returns opens every protected route for
    the seven days that follow: the handler is called with the user id of
    the account as [req.user.userId], on the state the request met. *)
Theorem login_token_opens_routes (now now' : Z) (req : Request) (st st' : State)
    (token : string) (usr_json : JSON)
    (handler : Request → State → Outcome * State) (b : Body) (rid : string) :
  pristine st →
  (login now req st).1
    = Sent 200 (Some (JObj [("token", JStr token); ("user", usr_json)])) →
  now' < now + 604800 →
  ∃ c uid uname,
    usr_json = JObj [("id", JStr uid); ("name", JStr uname)]
    ∧ userId c = uid
    ∧ protected handler now' (mkRequest (Some ("Bearer " +:+ token)) b rid None) st'
      = handler (mkRequest (Some ("Bearer " +:+ token)) b rid (Some c)) st'.
Proof.
  intros Hpr Hlogin Hwin.
  apply login_success_inv in Hlogin as (u & usr & _ & _ & Hjson); [|done].
  injection Hjson as -> ->.
  exists {| userId := id usr; username := id usr; iat := now;
            exp := Some (now + expiresIn); nbf := None |}, (id usr), (name usr).
  split; [done|]. split; [done|].
  unfold protected. rewrite authenticateToken_cases. cbn [authorization].
  destruct (jws_encode_compact
              {| payload := {| userId := id usr; username := id usr; iat := now;
                               exp := Some (now + expiresIn); nbf := None |};
                 signature := hmac JWT_SECRET
                                {| userId := id usr; username := id usr; iat := now;
                                   exp := Some (now + expiresIn); nbf := None |} |})
    as [Hns Hne].
  change (String.append "Bearer " (issue (id usr) (id usr) now))
    with ("Bearer" +:+ String " " (issue (id usr) (id usr) now)).
  rewrite bearer_token_scheme by done.
  destruct (String.eqb_spec (issue (id usr) (id usr) now) EmptyString); [done|].
  rewrite issued_token_lifetime_aux by done. simpl. done.
Qed.

(** ** Session store *)

Lemma ordinary_spec (uid : string) (st : State) :
  ordinary uid st = true ↔ is_Some (sessions st !! uid) ∨ vacant uid st = true.
Proof.
  unfold ordinary. destruct (sessions st !! uid) as [s|]; split; eauto.
  by intros [[? [=]]| ->].
Qed.

Lemma alien_spec (uid : string) (st : State) :
  alien uid st = true ↔ sessions st !! uid = None ∧ inherited uid = true.
Proof.
  unfold alien. destruct (sessions st !! uid) as [s|]; split; try done.
  - by intros [[=] _].
  - by intros [_ ->].
Qed.

Lemma alien_not_ordinary (uid : string) (st : State) :
  alien uid st = true → ordinary uid st = false.
Proof.
  intros [Hs Hi]%alien_spec. unfold ordinary, vacant. by rewrite Hs, Hi.
Qed.

Lemma addressable_cases (uid : string) (st : State) :
  addressable uid st = true → ordinary uid st = true ∨ alien uid st = true.
Proof.
  unfold addressable, ordinary, alien.
  destruct (sessions st !! uid); [by left|].
  destruct (vacant uid st); [by left|]. simpl. by right.
Qed.

Lemma contained_cases (uid : string) (st : State) :
  contained uid st = true →
  ordinary uid st = true ∨ (alien uid st = true ∧ uid ≠ "__proto__").
Proof.
  unfold contained, ordinary, alien.
  destruct (sessions st !! uid); [by left|].
  destruct (vacant uid st); [by left|]. simpl.
  destruct (inherited uid); [|done]. simpl.
  destruct (String.eqb_spec uid "__proto__"); [done|]. by right.
Qed.

Lemma getUserSession_ordinary (uid : string) (st : State) :
  ordinary uid st = true →
  (getUserSession uid st).1 = Own (current_session uid st).
Proof.
  unfold ordinary, getUserSession, current_session.
  destruct (sessions st !! uid); [done|]. intros [-> ->]%vacant_spec. done.
Qed.

Lemma getUserSession_alien (uid : string) (st : State) :
  alien uid st = true → getUserSession uid st = (Inherited uid, st).
Proof.
  intros [Hs Hi]%alien_spec. unfold getUserSession. by rewrite Hs, Hi.
Qed.

Lemma getUserSession_basket_value (uid : string) (st : State) (v : JSON) :
  sessions st !! uid = None → inherited uid = false →
  finds_basket uid st = Some v →
  getUserSession uid st = (Basket_value v, st).
Proof. intros Hs Hi Hf. unfold getUserSession. by rewrite Hs, Hi, Hf. Qed.

Lemma getUserSession_builtins (uid : string) (st : State) :
  builtins (getUserSession uid st).2 = builtins st.
Proof.
  unfold getUserSession. destruct (sessions st !! uid); [done|].
  destruct (inherited uid); [done|]. by destruct (finds_basket uid st).
Qed.

Lemma getUserSession_prototype (uid : string) (st : State) :
  prototype_basket (getUserSession uid st).2 = prototype_basket st.
Proof. unfold prototype_basket. by rewrite getUserSession_builtins. Qed.

Lemma getUserSession_users (uid : string) (st : State) :
  users (getUserSession uid st).2 = users st.
Proof.
  unfold getUserSession. destruct (sessions st !! uid); [done|].
  destruct (inherited uid); [done|]. by destruct (finds_basket uid st).
Qed.

Lemma getUserSession_lookup (uid uid' : string) (st : State) :
  sessions (getUserSession uid st).2 !! uid' =
    if decide (uid' = uid)
    then (if ordinary uid st then Some (current_session uid st) else None)
    else sessions st !! uid'.
Proof.
  unfold getUserSession, current_session, ordinary, vacant.
  destruct (decide (uid' = uid)) as [->|Hne];
    destruct (sessions st !! uid) eqn:Hs; simpl; try done;
    destruct (inherited uid); simpl; try done;
    destruct (finds_basket uid st); simpl; try done.
  - by rewrite lookup_insert_eq.
  - by rewrite lookup_insert_ne.
Qed.

Lemma getUserSession_snapshot (uid : string) (st : State) :
  sessions_file st = sessions st →
  sessions_file (getUserSession uid st).2 = sessions (getUserSession uid st).2.
Proof.
  unfold getUserSession. destruct (sessions st !! uid); [done|].
  destruct (inherited uid); [done|]. by destruct (finds_basket uid st).
Qed.

Lemma finds_basket_builtins (k : string) (st st' : State) :
  builtins st' = builtins st → finds_basket k st' = finds_basket k st.
Proof. intros H. unfold finds_basket, prototype_basket. by rewrite H. Qed.

Lemma getUserSession_again (uid : string) (st : State) :
  getUserSession uid (getUserSession uid st).2 = getUserSession uid st.
Proof.
  unfold getUserSession. destruct (sessions st !! uid) eqn:Hs; cbn [snd].
  - by rewrite Hs.
  - destruct (inherited uid) eqn:Hi; cbn [snd].
    + by rewrite Hs.
    + destruct (finds_basket uid st) eqn:Hf; cbn [snd].
      * by rewrite Hs, Hf.
      * simpl. by rewrite lookup_insert_eq.
Qed.

Lemma current_session_written (uid : string) (s : Session) (st : State) :
  current_session uid (written uid s st) = s.
Proof. unfold current_session, written. simpl. by rewrite lookup_insert_eq. Qed.

Lemma current_session_written_ne (uid uid' : string) (s : Session) (st : State) :
  uid ≠ uid' → current_session uid' (written uid s st) = current_session uid' st.
Proof.
  intros Hne. unfold current_session, written. simpl.
  by rewrite lookup_insert_ne.
Qed.

Lemma ordinary_written (uid : string) (s : Session) (st : State) :
  ordinary uid (written uid s st) = true.
Proof. unfold ordinary, written. simpl. by rewrite lookup_insert_eq. Qed.

Lemma written_written (uid : string) (s s' : Session) (st : State) :
  written uid s' (written uid s st) = written uid s' st.
Proof. unfold written. simpl. by rewrite insert_insert_eq. Qed.

Lemma prototype_basket_written (uid : string) (s : Session) (st : State) :
  prototype_basket (written uid s st) = prototype_basket st.
Proof. done. Qed.

(** Assigning to the record [getUserSession] returned and saving. *)
Lemma getUserSession_write (uid : string) (st : State) (s' : Session) :
  ordinary uid st = true →
  saveSessions (put_session uid s' (getUserSession uid st).2) = written uid s' st.
Proof.
  unfold ordinary, getUserSession, saveSessions, put_session, written.
  destruct (sessions st !! uid); simpl; [done|].
  intros [-> ->]%vacant_spec. simpl. by rewrite insert_insert_eq.
Qed.

Lemma getUserSession_current (uid uid' : string) (st : State) :
  current_session uid' (getUserSession uid st).2 = current_session uid' st.
Proof.
  unfold current_session. rewrite getUserSession_lookup.
  destruct (decide (uid' = uid)) as [->|]; [|done].
  unfold ordinary, current_session.
  destruct (sessions st !! uid); [done|]. by destruct (vacant uid st).
Qed.

(** *** The routes on a record and on a built-in object *)

Lemma get_recipes_read (h : option string) (b : Body) (rid : string)
    (c : Claims) (st : State) :
  ordinary (userId c) st = true →
  get_recipes (mkRequest h b rid (Some c)) st =
    (Sent 200 (Some (JArr (to_json <$> recipes (current_session (userId c) st)))),
     (getUserSession (userId c) st).2).
Proof.
  intros Hord. unfold get_recipes, with_user. simpl.
  rewrite (surjective_pairing (getUserSession (userId c) st)).
  by rewrite (getUserSession_ordinary _ _ Hord).
Qed.

Lemma get_recipes_alien (h : option string) (b : Body) (rid : string)
    (c : Claims) (st : State) :
  alien (userId c) st = true →
  get_recipes (mkRequest h b rid (Some c)) st = (Sent 200 None, st).
Proof.
  intros Hord. unfold get_recipes, with_user. simpl.
  by rewrite (getUserSession_alien _ _ Hord).
Qed.

Lemma post_recipes_written (h : option string) (b : Body) (rid : string)
    (c : Claims) (st : State) :
  ordinary (userId c) st = true →
  post_recipes (mkRequest h b rid (Some c)) st =
    (Sent 200 (Some (JObj [("success", JBool true); ("recipe", to_json b)])),
     written (userId c) (step_session (prototype_basket st) (SaveRecipe b)
                               (current_session (userId c) st)) st).
Proof.
  intros Hord. unfold post_recipes, with_user. simpl.
  rewrite (surjective_pairing (getUserSession (userId c) st)).
  rewrite (getUserSession_ordinary _ _ Hord). f_equal.
  by apply getUserSession_write.
Qed.

Lemma post_recipes_alien (h : option string) (b : Body) (rid : string)
    (c : Claims) (st : State) :
  alien (userId c) st = true →
  post_recipes (mkRequest h b rid (Some c)) st = (Uncaught TypeError, st).
Proof.
  intros Hord. unfold post_recipes, with_user. simpl.
  by rewrite (getUserSession_alien _ _ Hord).
Qed.

Lemma delete_recipes_written (h : option string) (b : Body) (rid : string)
    (c : Claims) (st : State) :
  ordinary (userId c) st = true →
  delete_recipes (mkRequest h b rid (Some c)) st =
    (Sent 200 success_body,
     written (userId c) (step_session (prototype_basket st) (DeleteRecipe rid)
                               (current_session (userId c) st)) st).
Proof.
  intros Hord. unfold delete_recipes, with_user. simpl.
  rewrite (surjective_pairing (getUserSession (userId c) st)).
  rewrite (getUserSession_ordinary _ _ Hord). f_equal.
  by apply getUserSession_write.
Qed.

Lemma delete_recipes_alien (h : option string) (b : Body) (rid : string)
    (c : Claims) (st : State) :
  alien (userId c) st = true →
  delete_recipes (mkRequest h b rid (Some c)) st = (Uncaught TypeError, st).
Proof.
  intros Hord. unfold delete_recipes, with_user. simpl.
  by rewrite (getUserSession_alien _ _ Hord).
Qed.

Lemma get_basket_read (h : option string) (b : Body) (rid : string)
    (c : Claims) (st : State) :
  ordinary (userId c) st = true →
  get_basket (mkRequest h b rid (Some c)) st =
    (Sent 200 (session_basket (current_session (userId c) st) st),
     (getUserSession (userId c) st).2).
Proof.
  intros Hord. unfold get_basket, with_user. simpl.
  rewrite (surjective_pairing (getUserSession (userId c) st)).
  rewrite (getUserSession_ordinary _ _ Hord).
  unfold session_basket. by rewrite getUserSession_prototype.
Qed.

Lemma get_basket_alien (h : option string) (b : Body) (rid : string)
    (c : Claims) (st : State) :
  alien (userId c) st = true →
  get_basket (mkRequest h b rid (Some c)) st
  = (Sent 200 (builtin_basket (userId c) st), st).
Proof.
  intros Hord. unfold get_basket, with_user. simpl.
  by rewrite (getUserSession_alien _ _ Hord).
Qed.

Lemma post_basket_written (h : option string) (b : Body) (rid : string)
    (c : Claims) (st : State) :
  ordinary (userId c) st = true →
  post_basket (mkRequest h b rid (Some c)) st =
    (Sent 200 success_body,
     written (userId c) (step_session (prototype_basket st) (UpdateBasket b)
                               (current_session (userId c) st)) st).
Proof.
  intros Hord. unfold post_basket, with_user. simpl.
  rewrite (surjective_pairing (getUserSession (userId c) st)).
  rewrite (getUserSession_ordinary _ _ Hord). simpl. f_equal.
  unfold read_basket. rewrite getUserSession_prototype.
  by apply getUserSession_write.
Qed.

Lemma post_basket_alien (h : option string) (b : Body) (rid : string)
    (c : Claims) (st : State) :
  alien (userId c) st = true →
  post_basket (mkRequest h b rid (Some c)) st =
    (Sent 200 success_body,
     saveSessions (put_builtin (userId c) (read_basket b st) st)).
Proof.
  intros Hord. unfold post_basket, with_user. simpl.
  by rewrite (getUserSession_alien _ _ Hord).
Qed.

Lemma delete_basket_written (h : option string) (b : Body) (rid : string)
    (c : Claims) (st : State) :
  ordinary (userId c) st = true →
  delete_basket (mkRequest h b rid (Some c)) st =
    (Sent 200 success_body,
     written (userId c) (step_session (prototype_basket st) ClearBasket
                               (current_session (userId c) st)) st).
Proof.
  intros Hord. unfold delete_basket, with_user. simpl.
  rewrite (surjective_pairing (getUserSession (userId c) st)).
  rewrite (getUserSession_ordinary _ _ Hord). simpl. f_equal.
  by apply getUserSession_write.
Qed.

Lemma delete_basket_alien (h : option string) (b : Body) (rid : string)
    (c : Claims) (st : State) :
  alien (userId c) st = true →
  delete_basket (mkRequest h b rid (Some c)) st =
    (Sent 200 success_body,
     saveSessions (put_builtin (userId c) (Some (JArr [])) st)).
Proof.
  intros Hord. unfold delete_basket, with_user. simpl.
  by rewrite (getUserSession_alien _ _ Hord).
Qed.


(** *** Scripts *)

Lemma vacant_builtins (k : string) (st st' : State) :
  prototype_basket st' = prototype_basket st → vacant k st' = vacant k st.
Proof. intros H. unfold vacant, finds_basket. by rewrite H. Qed.

Lemma prototype_basket_put_builtin (k : string) (v : JSVal) (st : State) :
  k ≠ "__proto__" →
  prototype_basket (saveSessions (put_builtin k v st)) = prototype_basket st.
Proof.
  intros Hk. unfold prototype_basket. simpl. by rewrite lookup_insert_ne.
Qed.

(** What an operation of a sender that is [contained] does to the
    tables. *)
Lemma run_op_effect (c : Claims) (op : Op) (st : State) :
  contained (userId c) st = true →
  prototype_basket (run_op c op st).2 = prototype_basket st
  ∧ users (run_op c op st).2 = users st
  ∧ (∀ uid, sessions (run_op c op st).2 !! uid =
       if decide (uid = userId c)
       then (if ordinary (userId c) st
             then Some (step_session (prototype_basket st) op
                          (current_session (userId c) st))
             else None)
       else sessions st !! uid)
  ∧ (∀ uid, builtins (run_op c op st).2 !! uid =
       if decide (uid = userId c)
       then (if ordinary (userId c) st then builtins st !! uid
             else match stored_by (prototype_basket st) op with
                  | Some v => Some v
                  | None => builtins st !! uid
                  end)
       else builtins st !! uid).
Proof.
  intros [Hord | [Hal Hne]]%contained_cases.
  - rewrite Hord.
    assert (∀ s, prototype_basket (written (userId c) s st) = prototype_basket st
                 ∧ users (written (userId c) s st) = users st
                 ∧ (∀ uid, sessions (written (userId c) s st) !! uid =
                      if decide (uid = userId c) then Some s else sessions st !! uid)
                 ∧ (∀ uid, builtins (written (userId c) s st) !! uid =
                      if decide (uid = userId c) then builtins st !! uid
                      else builtins st !! uid)) as Hw.
    { intros s. split_and!; try done.
      - intros uid. simpl. destruct (decide (uid = userId c)) as [->|].
        + by rewrite lookup_insert_eq.
        + by rewrite lookup_insert_ne.
      - intros uid. by destruct (decide _). }
    assert (prototype_basket (getUserSession (userId c) st).2 = prototype_basket st
            ∧ users (getUserSession (userId c) st).2 = users st
            ∧ (∀ uid, sessions (getUserSession (userId c) st).2 !! uid =
                 if decide (uid = userId c)
                 then Some (current_session (userId c) st)
                 else sessions st !! uid)
            ∧ (∀ uid, builtins (getUserSession (userId c) st).2 !! uid =
                 if decide (uid = userId c) then builtins st !! uid
                 else builtins st !! uid)) as Hr.
    { split_and!.
      - apply getUserSession_prototype.
      - apply getUserSession_users.
      - intros uid. by rewrite getUserSession_lookup, Hord.
      - intros uid. rewrite getUserSession_builtins. by destruct (decide _). }
    destruct op; simpl; unfold annotated;
      rewrite ?get_recipes_read, ?post_recipes_written, ?delete_recipes_written,
              ?get_basket_read, ?post_basket_written, ?delete_basket_written
        by done;
      cbn [snd]; solve [apply Hr | apply Hw].
  - rewrite (alien_not_ordinary _ _ Hal).
    apply alien_spec in Hal as Hal'. destruct Hal' as [Hs Hi].
    assert (∀ v, prototype_basket (saveSessions (put_builtin (userId c) v st))
                   = prototype_basket st
                 ∧ users (saveSessions (put_builtin (userId c) v st)) = users st
                 ∧ (∀ uid, sessions (saveSessions (put_builtin (userId c) v st)) !! uid =
                      if decide (uid = userId c) then None else sessions st !! uid)
                 ∧ (∀ uid, builtins (saveSessions (put_builtin (userId c) v st)) !! uid =
                      if decide (uid = userId c) then Some v
                      else builtins st !! uid)) as Hw.
    { intros v. split_and!.
      - by apply prototype_basket_put_builtin.
      - done.
      - intros uid. simpl. by destruct (decide (uid = userId c)) as [->|].
      - intros uid. simpl. destruct (decide (uid = userId c)) as [->|].
        + by rewrite lookup_insert_eq.
        + by rewrite lookup_insert_ne. }
    assert (prototype_basket st = prototype_basket st
            ∧ users st = users st
            ∧ (∀ uid, sessions st !! uid =
                 if decide (uid = userId c) then None else sessions st !! uid)
            ∧ (∀ uid, builtins st !! uid =
                 if decide (uid = userId c) then builtins st !! uid
                 else builtins st !! uid)) as Hr.
    { split_and!; try done.
      - intros uid. by destruct (decide (uid = userId c)) as [->|].
      - intros uid. by destruct (decide _). }
    destruct op; simpl; unfold annotated;
      rewrite ?get_recipes_alien, ?post_recipes_alien, ?delete_recipes_alien,
              ?get_basket_alien, ?post_basket_alien, ?delete_basket_alien
        by done;
      cbn [snd]; solve [apply Hr | apply Hw].
Qed.

Lemma run_op_ordinary (c : Claims) (op : Op) (st : State) (uid : string) :
  contained (userId c) st = true →
  ordinary uid st = true → ordinary uid (run_op c op st).2 = true.
Proof.
  intros Hc Hu. destruct (run_op_effect c op st Hc) as (Hp & _ & Hs & _).
  unfold ordinary in *. rewrite Hs, (vacant_builtins _ _ _ Hp).
  destruct (decide (uid = userId c)) as [->|]; [|done].
  destruct (sessions st !! userId c); [done|]. by rewrite Hu.
Qed.

Lemma run_op_alien (c : Claims) (op : Op) (st : State) (uid : string) :
  contained (userId c) st = true →
  alien uid st = true → alien uid (run_op c op st).2 = true.
Proof.
  intros Hc Hu. destruct (run_op_effect c op st Hc) as (_ & _ & Hs & _).
  pose proof (alien_not_ordinary _ _ Hu) as Hno.
  unfold alien in *. rewrite Hs.
  destruct (decide (uid = userId c)) as [->|]; [|done].
  rewrite Hno. by destruct (sessions st !! userId c).
Qed.

Lemma run_op_contained (c : Claims) (op : Op) (st : State) (uid : string) :
  contained (userId c) st = true →
  contained uid st = true → contained uid (run_op c op st).2 = true.
Proof.
  intros Hc [Hu | [Hu Hne]]%contained_cases; unfold contained.
  - by rewrite (run_op_ordinary c op st uid Hc Hu).
  - apply alien_spec in Hu as [_ ->]. simpl.
    destruct (String.eqb_spec uid "__proto__"); [done|]. apply orb_true_r.
Qed.

Lemma run_op_addressable (c : Claims) (op : Op) (st : State) (uid : string) :
  contained (userId c) st = true →
  addressable uid st = true → addressable uid (run_op c op st).2 = true.
Proof.
  intros Hc [Hu | Hu]%addressable_cases; unfold addressable.
  - by rewrite (run_op_ordinary c op st uid Hc Hu).
  - apply alien_spec in Hu as [_ ->]. apply orb_true_r.
Qed.

Lemma session_basket_step (proto : JSVal) (op : Op) (s : Session) (st st' : State) :
  prototype_basket st' = prototype_basket st →
  session_basket (step_session proto op s) st'
  = default (session_basket s st) (stored_by proto op).
Proof. intros Hp. unfold session_basket. rewrite Hp. by destruct op. Qed.

(** The basket a user reads after an operation of a contained sender: the
    one the operation stored when the user sent it, else the one read
    before. *)
Lemma run_op_basket_of (c : Claims) (op : Op) (st : State) (uid : string) :
  contained (userId c) st = true →
  basket_of uid (run_op c op st).2 =
    if decide (userId c = uid)
    then default (basket_of uid st) (stored_by (prototype_basket st) op)
    else basket_of uid st.
Proof.
  intros Hc. destruct (run_op_effect c op st Hc) as (Hp & _ & Hs & Hb).
  unfold basket_of, ordinary, current_session, builtin_basket.
  rewrite Hs, Hb, Hp, (vacant_builtins _ _ _ Hp).
  destruct (decide (uid = userId c)) as [->|Hne].
  - rewrite decide_True by done.
    destruct (ordinary (userId c) st) eqn:Hord.
    + simpl. rewrite (session_basket_step _ _ _ st) by done.
      unfold ordinary in Hord. unfold current_session.
      destruct (sessions st !! userId c); [done|]. by rewrite Hord.
    + unfold ordinary in Hord.
      destruct (sessions st !! userId c); [done|]. rewrite Hord.
      by destruct (stored_by (prototype_basket st) op).
  - rewrite decide_False by (by intros He; symmetry in He).
    destruct (sessions st !! uid); [|done].
    unfold session_basket. by rewrite Hp.
Qed.

Lemma run_ops_contained (script : list (Claims * Op)) (st : State) :
  (∀ e, e ∈ script → contained (userId e.1) st = true) →
  prototype_basket (run_ops script st) = prototype_basket st
  ∧ users (run_ops script st) = users st
  ∧ (∀ uid, ordinary uid st = true → ordinary uid (run_ops script st) = true)
  ∧ (∀ uid, alien uid st = true → alien uid (run_ops script st) = true)
  ∧ (∀ uid, basket_of uid (run_ops script st)
            = last_stored uid (prototype_basket st) script (basket_of uid st)).
Proof.
  revert st. induction script as [|[c op] rest IH]; intros st Hall; [done|].
  assert (contained (userId c) st = true) as Hc by (apply (Hall (c, op)); left).
  destruct (IH (run_op c op st).2) as (Hp & Hu & Ho & Ha & Hb).
  { intros e He. apply run_op_contained; [done|]. apply Hall. by right. }
  destruct (run_op_effect c op st Hc) as (Hp1 & Hu1 & _ & _).
  simpl. split_and!.
  - by rewrite Hp.
  - by rewrite Hu.
  - intros uid Huid. apply Ho. by apply run_op_ordinary.
  - intros uid Huid. apply Ha. by apply run_op_alien.
  - intros uid. by rewrite Hb, Hp1, run_op_basket_of.
Qed.

Lemma get_basket_addressable (h : option string) (b : Body) (rid : string)
    (c : Claims) (st : State) :
  addressable (userId c) st = true →
  (get_basket (mkRequest h b rid (Some c)) st).1
  = Sent 200 (basket_of (userId c) st).
Proof.
  intros [Hu | Hu]%addressable_cases; unfold basket_of.
  - by rewrite get_basket_read, Hu.
  - by rewrite get_basket_alien, (alien_not_ordinary _ _ Hu).
Qed.

Lemma is_list_last_stored (uid : string) (proto : JSVal)
    (script : list (Claims * Op)) (init : JSVal) :
  is_list init = true →
  Forall (λ e, userId e.1 = uid → list_valued e.2 = true) script →
  is_list (last_stored uid proto script init) = true.
Proof.
  revert init. induction script as [|[c op] rest IH]; intros init Hi Hall; [done|].
  apply Forall_cons in Hall as [Hop Hrest]. simpl. apply IH; [|done].
  destruct (decide (userId c = uid)) as [He|]; [|done].
  specialize (Hop He). destruct op; try done. simpl in *.
  unfold inherit_basket. by destruct (body_prop "basket" b).
Qed.

(** ** Recipes *)

Lemma number_eq_eq (x y : JsNumber) : number_eq x y = true → x = y.
Proof.
  destruct x as [p|a], y as [q|b]; simpl; try done.
  - intros H. f_equal. apply Qc_is_canon. by apply Qeq_bool_iff.
  - intros H. by rewrite (Bool.eqb_prop _ _ H).
Qed.

Lemma number_eq_refl (x : JsNumber) : number_eq x x = true.
Proof.
  destruct x as [p|a]; simpl.
  - by apply Qeq_bool_iff.
  - by destruct a.
Qed.

Lemma strict_eq_eq (a b : JSVal) : strict_eq a b = true → a = b.
Proof.
  destruct a as [[| x | x | x | |]|], b as [[| y | y | y | |]|]; simpl; try done.
  - intros H. by rewrite (Bool.eqb_prop _ _ H).
  - intros H. by rewrite (number_eq_eq _ _ H).
  - intros H. by rewrite (proj1 (String.eqb_eq _ _) H).
Qed.






Lemma upsert_no_match (r : Body) (rs : list Body) :
  (∀ x, x ∈ rs → same_id x r = false) → upsert r rs = rs ++ [r].
Proof.
  induction rs as [|x rs IH]; intros Hno; [done|].
  rewrite upsert_cons, (Hno x) by left. simpl. f_equal.
  apply IH. intros y Hy. apply Hno. by right.
Qed.


Lemma upsert_elem (r : Body) (rs : list Body) : r ∈ upsert r rs.
Proof.
  induction rs as [|x rs IH]; [by left|].
  rewrite upsert_cons. destruct (same_id x r); [by left|by right].
Qed.








Lemma strict_eq_JStr (a : JSVal) (s : string) :
  strict_eq a (Some (JStr s)) = false ↔ a ≠ Some (JStr s).
Proof.
  split.
  - intros Hf ->. simpl in Hf. by rewrite String.eqb_refl in Hf.
  - intros Hne. destruct (strict_eq a (Some (JStr s))) eqn:He; [|done].
    by apply strict_eq_eq in He.
Qed.

Lemma filter_upsert_fresh (recipe : Body) (rid : string) (rs : list Body) :
  body_prop "id" recipe = Some (JStr rid) →
  (∀ r, r ∈ rs → body_prop "id" r ≠ Some (JStr rid)) →
  filter (λ r, strict_eq (body_prop "id" r) (Some (JStr rid)) = false)
         (upsert recipe rs) = rs.
Proof.
  intros Hid Hfresh.
  rewrite upsert_no_match.
  - rewrite filter_app, filter_cons_False, filter_nil, app_nil_r.
    + apply filter_all. intros r Hr. by apply strict_eq_JStr, Hfresh.
    + rewrite Hid. simpl. by rewrite String.eqb_refl.
  - intros r Hr. unfold same_id. rewrite Hid. by apply strict_eq_JStr, Hfresh.
Qed.

Lemma upsert_keeps_others (recipe r : Body) (rs : list Body) :
  r ∈ rs → same_id r recipe = false → r ∈ upsert recipe rs.
Proof.
  induction rs as [|x rs IH]; intros Hin Hr; [by apply elem_of_nil in Hin|].
  rewrite upsert_cons. apply elem_of_cons in Hin as [<-|Hin].
  - rewrite Hr. by left.
  - destruct (same_id x recipe); right; [done|by apply IH].
Qed.

Lemma upsert_length (recipe : Body) (rs : list Body) :
  (length rs ≤ length (upsert recipe rs) ≤ S (length rs))%nat.
Proof.
  induction rs as [|x rs IH]; [simpl; lia|].
  rewrite upsert_cons. destruct (same_id x recipe); simpl; lia.
Qed.

(** ** The session store, claim by claim *)

(** C6. [getUserSession] answers for every user id and state, but not
    always with a record.  A record that exists is returned as it is and
    nothing changes.  When there is none and the table inherits nothing
    truthy under the user id, the record with an empty recipe list and an
    empty basket is put in the table, the table is saved, and the record is
    returned.  When there is none and the user id is a name every object
    inherits, no record is made: the built-in object found under that
    name is returned; likewise for the value a request has stored under
    [Object.prototype.basket] and the user id [basket].  Asking again
    returns the same and changes nothing more. *)
Theorem getUserSession_get_or_create (uid : string) (st : State) :
  (∃ r st', getUserSession uid st = (r, st'))
  ∧ (∀ s, sessions st !! uid = Some s → getUserSession uid st = (Own s, st))
  ∧ (sessions st !! uid = None → vacant uid st = true →
       getUserSession uid st =
         (Own {| recipes := []; basket := Some (Some (JArr [])) |},
          {| users := users st;
             sessions :=
               <[uid := {| recipes := []; basket := Some (Some (JArr [])) |}]>
                 (sessions st);
             sessions_file :=
               <[uid := {| recipes := []; basket := Some (Some (JArr [])) |}]>
                 (sessions st);
             builtins := builtins st |}))
  ∧ (sessions st !! uid = None → inherited uid = true →
       getUserSession uid st = (Inherited uid, st))
  ∧ (∀ v, sessions st !! uid = None → inherited uid = false →
       finds_basket uid st = Some v →
       getUserSession uid st = (Basket_value v, st))
  ∧ (ordinary uid st = true →
       ∃ s, (getUserSession uid st).1 = Own s
            ∧ sessions (getUserSession uid st).2 !! uid = Some s)
  ∧ (ordinary uid st = false →
       sessions (getUserSession uid st).2 !! uid = None)
  ∧ getUserSession uid (getUserSession uid st).2 = getUserSession uid st
  ∧ (∀ uid', uid' ≠ uid →
       sessions (getUserSession uid st).2 !! uid' = sessions st !! uid').
Proof.
  split_and!.
  - by exists (getUserSession uid st).1, (getUserSession uid st).2;
      rewrite <- surjective_pairing.
  - unfold getUserSession. by intros s ->.
  - unfold getUserSession. by intros -> [-> ->]%vacant_spec.
  - unfold getUserSession. by intros -> ->.
  - intros v. apply getUserSession_basket_value.
  - intros Hord. exists (current_session uid st).
    split; [by apply getUserSession_ordinary|].
    by rewrite getUserSession_lookup, decide_True, Hord.
  - intros Hord. by rewrite getUserSession_lookup, decide_True, Hord.
  - apply getUserSession_again.
  - intros uid' Hne. by rewrite getUserSession_lookup, decide_False.
Qed.




(** C7. For a user id under which the session table has or makes a
    record, deleting a recipe id answers 200 and leaves the user with the
    entries whose id is not that string, in their order; when no entry
    carries the id the list is the same as before.  For a user id under
    which the table finds a built-in object the request ends in a
    [TypeError].  In both cases deleting the same id a second time changes
    neither the answer nor the state. *)
Theorem delete_recipes_idempotent (h : option string) (b : Body) (rid : string)
    (c : Claims) (st : State) :
  let req := mkRequest h b rid (Some c) in
  let old := recipes (current_session (userId c) st) in
  let new := recipes (current_session (userId c) (delete_recipes req st).2) in
  (ordinary (userId c) st = true →
     (delete_recipes req st).1 = Sent 200 success_body
     ∧ new = filter (λ r, strict_eq (body_prop "id" r) (Some (JStr rid)) = false) old
     ∧ (∀ r, r ∈ new ↔ r ∈ old ∧ body_prop "id" r ≠ Some (JStr rid))
     ∧ ((∀ r, r ∈ old → body_prop "id" r ≠ Some (JStr rid)) → new = old)
     ∧ basket (current_session (userId c) (delete_recipes req st).2)
       = basket (current_session (userId c) st)
     ∧ sessions_file (delete_recipes req st).2 = sessions (delete_recipes req st).2)
  ∧ (alien (userId c) st = true → delete_recipes req st = (Uncaught TypeError, st))
  ∧ (addressable (userId c) st = true →
     delete_recipes req (delete_recipes req st).2 = delete_recipes req st).
Proof.
  intros req old new. subst req old new. split_and!.
  - intros Hord. rewrite !delete_recipes_written by done. simpl.
    rewrite !current_session_written.
    set (rs := recipes (current_session (userId c) st)). simpl.
    split_and!.
    + done.
    + done.
    + intros r. rewrite list_elem_of_filter, strict_eq_JStr.
      by split; intros [? ?].
    + intros Hno. apply filter_all. intros r Hr. by apply strict_eq_JStr, Hno.
    + done.
    + done.
  - apply delete_recipes_alien.
  - intros [Hord | Hal]%addressable_cases.
    + rewrite (delete_recipes_written h b rid c st Hord). cbn [snd].
      rewrite delete_recipes_written by apply ordinary_written.
      f_equal. rewrite written_written. f_equal.
      rewrite current_session_written. simpl. f_equal.
      apply filter_all. by intros r [Hr _]%list_elem_of_filter.
    + rewrite (delete_recipes_alien h b rid c st Hal). cbn [snd].
      by apply delete_recipes_alien.
Qed.

(** ** Basket *)


Lemma basket_after_post (h h' : option string) (b b' : Body) (rid rid' : string)
    (c : Claims) (st : State) :
  addressable (userId c) st = true →
  (get_basket (mkRequest h' b' rid' (Some c))
              (post_basket (mkRequest h b rid (Some c)) st).2).1
  = Sent 200 (read_basket b st).
Proof.
  intros [Hord | Hal]%addressable_cases.
  - rewrite post_basket_written by done. cbn [snd].
    rewrite get_basket_read by apply ordinary_written. cbn [fst].
    by rewrite current_session_written.
  - rewrite post_basket_alien by done. cbn [snd].
    rewrite get_basket_alien.
    + cbn [fst]. unfold builtin_basket. simpl. by rewrite lookup_insert_eq.
    + apply alien_spec in Hal as [Hs Hi]. apply alien_spec. by split.
Qed.


(** C9 (amended). Let every request of a script come from a user id under
    which the session table has or makes a record or finds a built-in
    function, and let the reader be such a user id or [__proto__].  Then
    reading the basket after the script answers 200 with the value the
    reader's last basket update or clearing stored, and with the value
    read before the script when the reader sent none.  That value is a
    list when the one before the script was and every basket update of the
    reader carried a list under [basket]. *)
Theorem get_basket_list (script : list (Claims * Op)) (st : State) (c : Claims) :
  (∀ e, e ∈ script → contained (userId e.1) st = true) →
  addressable (userId c) st = true →
  let init := basket_of (userId c) st in
  (run_op c GetBasket (run_ops script st)).1
  = Sent 200 (last_stored (userId c) (prototype_basket st) script init)
  ∧ (is_list init = true →
     Forall (λ e, userId e.1 = userId c → list_valued e.2 = true) script →
     ∃ xs, (run_op c GetBasket (run_ops script st)).1 = Sent 200 (Some (JArr xs))).
Proof.
  intros Hall Hadd init. subst init.
  destruct (run_ops_contained script st Hall) as (_ & _ & Ho & Ha & Hb).
  assert (addressable (userId c) (run_ops script st) = true) as Hadd'.
  { apply addressable_cases in Hadd as [Hu | Hu]; unfold addressable.
    - by rewrite (Ho _ Hu).
    - apply alien_spec in Hu as [_ ->]. apply orb_true_r. }
  simpl. unfold annotated. rewrite get_basket_addressable, Hb by done.
  split; [done|]. intros Hi Hlist.
  pose proof (is_list_last_stored (userId c) (prototype_basket st) script _ Hi Hlist)
    as Hl.
  destruct (last_stored _ _ _ _) as [[| ? | ? | ? | xs | ?]|]; try done.
  by exists xs.
Qed.

(** C10. The handler of [GET /api/verify] answers 200 when the user id of
    the token is a key of the users table.  When it is not, the handler
    reads [id] and [name] on whatever the table inherits under that name:
    it answers 200 without an [id] for a name every object inherits, and
    throws a [TypeError] when nothing, or [null], is inherited.  The
    [TypeError] is reached through the gate by a token the server itself
    issued and that has not expired. *)
Theorem get_verify_needs_known_user :
  (∀ req st c usr, user req = Some c → users st !! userId c = Some usr →
     get_verify req st = (Sent 200 (Some (user_body usr)), st))
  ∧ (∀ req st c, user req = Some c → users st !! userId c = None →
       inherited (userId c) = false →
       (userId c = "basket" → prototype_basket st = None
                              ∨ prototype_basket st = Some JNull) →
       get_verify req st = (Uncaught TypeError, st))
  ∧ (∀ req st c, user req = Some c → users st !! userId c = None →
       inherited (userId c) = true →
       get_verify req st = (Sent 200 (Some (builtin_body (userId c))), st))
  ∧ (∀ uid now now' b rid st,
       now' < now + 604800 → users st !! uid = None →
       inherited uid = false →
       (uid = "basket" → prototype_basket st = None
                         ∨ prototype_basket st = Some JNull) →
       protected get_verify now'
         (mkRequest (Some ("Bearer " +:+ issue uid uid now)) b rid None) st
       = (Uncaught TypeError, st))
  ∧ (∃ req st now,
       (∃ c, authenticateToken now req = Next (set_user req c))
       ∧ protected get_verify now req st = (Uncaught TypeError, st)).
Proof.
  assert (Hgate : ∀ uid now now' b rid,
    now' < now + 604800 →
    authenticateToken now'
      (mkRequest (Some ("Bearer " +:+ issue uid uid now)) b rid None)
    = Next (set_user (mkRequest (Some ("Bearer " +:+ issue uid uid now)) b rid None)
              {| userId := uid; username := uid; iat := now;
                 exp := Some (now + expiresIn); nbf := None |})).
  { intros uid now now' b rid Hwin. rewrite authenticateToken_cases.
    cbn [authorization].
    destruct (jws_encode_compact
                {| payload := {| userId := uid; username := uid; iat := now;
                                 exp := Some (now + expiresIn); nbf := None |};
                   signature := hmac JWT_SECRET
                                  {| userId := uid; username := uid; iat := now;
                                     exp := Some (now + expiresIn); nbf := None |} |})
      as [Hns Hne].
    change (String.append "Bearer " (issue uid uid now))
      with ("Bearer" +:+ String " " (issue uid uid now)).
    rewrite bearer_token_scheme by done.
    destruct (String.eqb_spec (issue uid uid now) EmptyString); [done|].
    by rewrite issued_token_lifetime_aux. }
  assert (Hmiss : ∀ req st c, user req = Some c → users st !! userId c = None →
            inherited (userId c) = false →
            (userId c = "basket" → prototype_basket st = None
                                   ∨ prototype_basket st = Some JNull) →
            get_verify req st = (Uncaught TypeError, st)).
  { intros req st c Hu Hk Hi Hb. unfold get_verify, with_user.
    rewrite Hu, Hk, Hi.
    destruct (String.eqb_spec (userId c) "basket") as [He|]; [|done].
    by destruct (Hb He) as [-> | ->]. }
  split_and!.
  - intros req st c usr Hu Hhit. unfold get_verify, with_user. by rewrite Hu, Hhit.
  - exact Hmiss.
  - intros req st c Hu Hk Hi. unfold get_verify, with_user. by rewrite Hu, Hk, Hi.
  - intros uid now now' b rid st Hwin Hk Hi Hb. unfold protected.
    rewrite Hgate by done.
    by apply (Hmiss _ st {| userId := uid; username := uid; iat := now;
                            exp := Some (now + expiresIn); nbf := None |}).
  - exists (mkRequest (Some ("Bearer " +:+ issue "ghost" "ghost" 0))
                      (BObj []) EmptyString None),
      {| users := ∅; sessions := ∅; sessions_file := ∅; builtins := ∅ |}, 0.
    split; [eexists; by apply Hgate|].
    unfold protected. rewrite Hgate by done. done.
Qed.

(** ** Further properties: the session store *)

Lemma finds_basket_prototype (k : string) (st st' : State) :
  prototype_basket st' = prototype_basket st →
  finds_basket k st' = finds_basket k st.
Proof. intros H. unfold finds_basket. by rewrite H. Qed.

(** What the two reading routes answer depends on the record of the
    reader, on the [basket] of the built-in object under his name, and on
    [Object.prototype.basket]. *)
Lemma reads_depend_on (h : option string) (b : Body) (rid : string)
    (c : Claims) (st st' : State) :
  sessions st' !! userId c = sessions st !! userId c →
  builtins st' !! userId c = builtins st !! userId c →
  prototype_basket st' = prototype_basket st →
  (get_basket (mkRequest h b rid (Some c)) st').1
  = (get_basket (mkRequest h b rid (Some c)) st).1
  ∧ (get_recipes (mkRequest h b rid (Some c)) st').1
    = (get_recipes (mkRequest h b rid (Some c)) st).1.
Proof.
  intros Hs Hb Hp.
  unfold get_basket, get_recipes, with_user, getUserSession. simpl.
  rewrite Hs, (finds_basket_prototype _ _ _ Hp).
  destruct (sessions st !! userId c) as [s|].
  - unfold session_basket. by rewrite Hp.
  - destruct (inherited (userId c)).
    + unfold builtin_basket. by rewrite Hb, Hp.
    + by destruct (finds_basket (userId c) st).
Qed.

Lemma run_ops_untouched (script : list (Claims * Op)) (st : State) (uid : string) :
  (∀ e, e ∈ script → contained (userId e.1) st = true) →
  uid ∉ senders script →
  sessions (run_ops script st) !! uid = sessions st !! uid
  ∧ builtins (run_ops script st) !! uid = builtins st !! uid.
Proof.
  revert st. induction script as [|[c op] rest IH]; intros st Hall Hnot; [done|].
  assert (contained (userId c) st = true) as Hc by (apply (Hall (c, op)); left).
  unfold senders in Hnot. simpl in Hnot.
  apply not_elem_of_union in Hnot as [Hne Hrest].
  apply not_elem_of_singleton in Hne.
  destruct (IH (run_op c op st).2) as [Hs Hb]; [|done|].
  { intros e He. apply run_op_contained; [done|]. apply Hall. by right. }
  destruct (run_op_effect c op st Hc) as (_ & _ & Hs1 & Hb1).
  simpl. rewrite Hs, Hb, Hs1, Hb1. by rewrite !decide_False.
Qed.

(** X7. Let every request of a script come from a user id under which the
    session table has or makes a record or finds a built-in function.
    Then the script leaves alone whatever belongs to a user it does not
    act for: his record (a missing one stays missing), the basket of the
    built-in object under his name, and so the answers of his two reading
    routes; it leaves the users table and [Object.prototype] alone. *)
Theorem script_touches_only_senders (script : list (Claims * Op)) (st : State)
    (uid : string) :
  (∀ e, e ∈ script → contained (userId e.1) st = true) →
  uid ∉ senders script →
  sessions (run_ops script st) !! uid = sessions st !! uid
  ∧ builtins (run_ops script st) !! uid = builtins st !! uid
  ∧ users (run_ops script st) = users st
  ∧ prototype_basket (run_ops script st) = prototype_basket st
  ∧ (∀ h b rid c, userId c = uid →
       (get_basket (mkRequest h b rid (Some c)) (run_ops script st)).1
       = (get_basket (mkRequest h b rid (Some c)) st).1
       ∧ (get_recipes (mkRequest h b rid (Some c)) (run_ops script st)).1
         = (get_recipes (mkRequest h b rid (Some c)) st).1).
Proof.
  intros Hall Hnot.
  destruct (run_ops_untouched script st uid Hall Hnot) as [Hs Hb].
  destruct (run_ops_contained script st Hall) as (Hp & Hu & _).
  split_and!; try done.
  intros h b rid c <-. by apply reads_depend_on.
Qed.

Lemma run_op_dom (c : Claims) (op : Op) (st : State) (uid : string) :
  contained (userId c) st = true →
  is_Some (sessions (run_op c op st).2 !! uid)
  ↔ is_Some (sessions st !! uid) ∨ (uid = userId c ∧ ordinary uid st = true).
Proof.
  intros Hc. destruct (run_op_effect c op st Hc) as (_ & _ & Hs & _).
  rewrite Hs. destruct (decide (uid = userId c)) as [->|Hne].
  - destruct (ordinary (userId c) st) eqn:Hord.
    + split; [by right|by eexists].
    + split; [by intros [? [=]]|]. intros [[s Hk]|[_ [=]]].
      unfold ordinary in Hord. by rewrite Hk in Hord.
  - split; [by left|]. by intros [?|[? _]].
Qed.

Lemma ordinary_after (c : Claims) (op : Op) (st : State) (uid : string) :
  contained (userId c) st = true →
  ordinary uid (run_op c op st).2 = true
  ↔ ordinary uid st = true.
Proof.
  intros Hc. split; [|by apply run_op_ordinary].
  destruct (run_op_effect c op st Hc) as (Hp & _ & _ & _).
  rewrite !ordinary_spec, (vacant_builtins _ _ _ Hp), run_op_dom by done.
  intros [[?|[_ ?%ordinary_spec]]|?]; auto.
Qed.

(** X8. After a script of such requests the users with a session record
    are the users that had one before and those senders of the script
    under whose user id the table inherits nothing truthy: a record is
    made at the first operation of such a user, reads included, and none
    is ever removed. *)
Theorem script_session_owners (script : list (Claims * Op)) (st : State)
    (uid : string) :
  (∀ e, e ∈ script → contained (userId e.1) st = true) →
  is_Some (sessions (run_ops script st) !! uid)
  ↔ is_Some (sessions st !! uid)
    ∨ (uid ∈ senders script ∧ ordinary uid st = true).
Proof.
  revert st. induction script as [|[c op] rest IH]; intros st Hall.
  - unfold senders. simpl. split; [by left|].
    by intros [?|[?%elem_of_empty _]].
  - assert (contained (userId c) st = true) as Hc by (apply (Hall (c, op)); left).
    simpl. rewrite IH.
    + rewrite run_op_dom, ordinary_after by done.
      unfold senders. simpl. rewrite elem_of_union, elem_of_singleton.
      split.
      * intros [[?|[? ?]]|[? ?]]; auto.
      * intros [?|[[?|?] ?]]; auto.
    + intros e He. apply run_op_contained; [done|]. apply Hall. by right.
Qed.

Lemma run_op_session (c : Claims) (op : Op) (st : State) (uid : string) :
  addressable (userId c) st = true →
  current_session uid (run_op c op st).2 =
    if decide (uid = userId c)
    then (if ordinary (userId c) st
          then step_session (prototype_basket st) op (current_session uid st)
          else current_session uid st)
    else current_session uid st.
Proof.
  intros [Hord | Hal]%addressable_cases.
  - assert (contained (userId c) st = true) as Hc
      by (unfold contained; by rewrite Hord).
    destruct (run_op_effect c op st Hc) as (_ & _ & Hs & _).
    unfold current_session at 1. rewrite Hs, Hord.
    by destruct (decide (uid = userId c)) as [->|].
  - rewrite (alien_not_ordinary _ _ Hal).
    assert (sessions (run_op c op st).2 = sessions st) as Hs.
    { destruct op; simpl; unfold annotated;
        by rewrite ?get_recipes_alien, ?post_recipes_alien, ?delete_recipes_alien,
                   ?get_basket_alien, ?post_basket_alien, ?delete_basket_alien
          by done. }
    unfold current_session. rewrite Hs. by destruct (decide _).
Qed.

(** X9. For a sender under whose user id the session table has or makes a
    record or finds a built-in object, the recipe routes never change the
    basket of a record and the basket routes never change a recipe list;
    the two reading routes change neither. *)
Theorem recipes_and_basket_independent (c : Claims) (op : Op) (st : State)
    (uid : string) :
  addressable (userId c) st = true →
  match op with
  | UpdateBasket _ | ClearBasket => True
  | _ => basket (current_session uid (run_op c op st).2)
         = basket (current_session uid st)
  end
  ∧ match op with
    | SaveRecipe _ | DeleteRecipe _ => True
    | _ => recipes (current_session uid (run_op c op st).2)
           = recipes (current_session uid st)
    end.
Proof.
  intros Hadd. rewrite run_op_session by done.
  destruct (decide _); [|by destruct op].
  destruct (ordinary (userId c) st); by destruct op.
Qed.

(** X10. For such a sender, clearing the basket is replacing it by the
    empty list: the two requests leave the same state and the same answer,
    and a basket read after either gives the empty list. *)
Theorem delete_basket_is_replace_empty (h h' h'' : option string) (b b'' : Body)
    (rid rid' rid'' : string) (c : Claims) (st : State) :
  addressable (userId c) st = true →
  delete_basket (mkRequest h b rid (Some c)) st
  = post_basket (mkRequest h' (BObj [("basket", JArr [])]) rid' (Some c)) st
  ∧ (get_basket (mkRequest h'' b'' rid'' (Some c))
       (delete_basket (mkRequest h b rid (Some c)) st).2).1
    = Sent 200 (Some (JArr []))
  ∧ recipes (current_session (userId c)
       (delete_basket (mkRequest h b rid (Some c)) st).2)
    = recipes (current_session (userId c) st).
Proof.
  intros Hadd.
  assert (delete_basket (mkRequest h b rid (Some c)) st
          = post_basket (mkRequest h' (BObj [("basket", JArr [])]) rid' (Some c)) st)
    as Heq.
  { apply addressable_cases in Hadd as [Hord | Hal].
    - by rewrite delete_basket_written, post_basket_written.
    - by rewrite delete_basket_alien, post_basket_alien. }
  split; [done|]. rewrite Heq. split; [by rewrite basket_after_post|].
  pose proof (run_op_session c (UpdateBasket (BObj [("basket", JArr [])])) st
                (userId c) Hadd) as Hs.
  simpl in Hs. unfold annotated in Hs.
  assert (∀ hh rr, post_basket (mkRequest hh (BObj [("basket", JArr [])]) rr (Some c)) st
                   = post_basket (mkRequest h' (BObj [("basket", JArr [])]) rid' (Some c)) st)
    as Hind.
  { intros hh rr. apply addressable_cases in Hadd as [Hord | Hal].
    - by rewrite !post_basket_written.
    - by rewrite !post_basket_alien. }
  rewrite Hind, decide_True in Hs by done. rewrite Hs.
  by destruct (ordinary (userId c) st).
Qed.

Lemma recipe_routes_elsewhere (h : option string) (b : Body) (rid : string)
    (c : Claims) (st : State) :
  ordinary (userId c) st = false →
  (post_recipes (mkRequest h b rid (Some c)) st).2 = st
  ∧ (delete_recipes (mkRequest h b rid (Some c)) st).2 = st.
Proof.
  unfold ordinary, vacant, post_recipes, delete_recipes, with_user, getUserSession.
  simpl. destruct (sessions st !! userId c); [done|].
  destruct (inherited (userId c)); [done|].
  by destruct (finds_basket (userId c) st).
Qed.

(** X11. Saving a recipe under a string id that no stored recipe carries
    and then deleting that id gives back the recipe list as it was. *)
Theorem save_then_delete_restores (h h' : option string) (b' : Body)
    (rid rid0 : string) (recipe : Body) (c : Claims) (st : State) :
  body_prop "id" recipe = Some (JStr rid) →
  (∀ r, r ∈ recipes (current_session (userId c) st) →
        body_prop "id" r ≠ Some (JStr rid)) →
  recipes (current_session (userId c)
     (delete_recipes (mkRequest h' b' rid (Some c))
        (post_recipes (mkRequest h recipe rid0 (Some c)) st).2).2)
  = recipes (current_session (userId c) st).
Proof.
  intros Hid Hfresh. destruct (ordinary (userId c) st) eqn:Hord.
  - rewrite post_recipes_written by done. cbn [snd].
    rewrite delete_recipes_written by apply ordinary_written. cbn [snd].
    rewrite !current_session_written. simpl.
    by apply filter_upsert_fresh.
  - destruct (recipe_routes_elsewhere h recipe rid0 c st Hord) as [-> _].
    by destruct (recipe_routes_elsewhere h' b' rid c st Hord) as [_ ->].
Qed.

(** X12. For a user id under which the session table has or makes a
    record, the recipe list read after a save holds the saved recipe and
    every recipe that was stored under another id, and is as long as the
    list before or one longer. *)
Theorem saved_recipe_is_listed (h h' : option string) (b' : Body)
    (rid rid' : string) (recipe : Body) (c : Claims) (st : State) :
  ordinary (userId c) st = true →
  let old := recipes (current_session (userId c) st) in
  ∃ listed,
    (get_recipes (mkRequest h' b' rid' (Some c))
       (post_recipes (mkRequest h recipe rid (Some c)) st).2).1
    = Sent 200 (Some (JArr (to_json <$> listed)))
    ∧ recipe ∈ listed
    ∧ (∀ r, r ∈ old → same_id r recipe = false → r ∈ listed)
    ∧ (length old ≤ length listed ≤ S (length old))%nat.
Proof.
  intros Hord old. exists (upsert recipe old).
  rewrite post_recipes_written by done. cbn [snd].
  rewrite get_recipes_read by apply ordinary_written. cbn [fst].
  rewrite current_session_written. simpl.
  split; [done|]. split; [apply upsert_elem|].
  split; [intros r; apply upsert_keeps_others | apply upsert_length].
Qed.

Lemma reads_state (h : option string) (b : Body) (rid : string)
    (c : Claims) (st : State) :
  (get_recipes (mkRequest h b rid (Some c)) st).2 = (getUserSession (userId c) st).2
  ∧ (get_basket (mkRequest h b rid (Some c)) st).2 = (getUserSession (userId c) st).2.
Proof.
  unfold get_recipes, get_basket, with_user. simpl.
  by destruct (getUserSession (userId c) st) as [[s|k|v] st1].
Qed.

Lemma reads_again (h : option string) (b : Body) (rid : string)
    (c : Claims) (st : State) :
  get_recipes (mkRequest h b rid (Some c)) (getUserSession (userId c) st).2
  = get_recipes (mkRequest h b rid (Some c)) st
  ∧ get_basket (mkRequest h b rid (Some c)) (getUserSession (userId c) st).2
    = get_basket (mkRequest h b rid (Some c)) st.
Proof.
  unfold get_recipes, get_basket, with_user. simpl.
  rewrite getUserSession_again.
  by destruct (getUserSession (userId c) st) as [[s|k|v] st1].
Qed.

(** X13. The two reading routes change the tables at most by giving the
    sender the empty record he lacked, and they do so only when the table
    inherits nothing truthy under his user id: every record that existed
    is kept as it was, the users table and the built-in objects are left
    alone, a sender who had a record or gets none finds the state
    untouched, and reading again gives the same answer and changes nothing
    more. *)
Theorem reads_only_create (h : option string) (b : Body) (rid : string)
    (c : Claims) (st : State) :
  let req := mkRequest h b rid (Some c) in
  (get_recipes req st).2 = (get_basket req st).2
  ∧ (∀ uid s, sessions st !! uid = Some s →
       sessions (get_recipes req st).2 !! uid = Some s)
  ∧ sessions (get_recipes req st).2 !! userId c
    = (if ordinary (userId c) st
       then Some (default fresh_session (sessions st !! userId c))
       else None)
  ∧ users (get_recipes req st).2 = users st
  ∧ builtins (get_recipes req st).2 = builtins st
  ∧ (is_Some (sessions st !! userId c) ∨ ordinary (userId c) st = false →
     (get_recipes req st).2 = st)
  ∧ get_recipes req (get_recipes req st).2 = get_recipes req st
  ∧ get_basket req (get_basket req st).2 = get_basket req st.
Proof.
  intros req. subst req.
  destruct (reads_state h b rid c st) as [-> ->].
  destruct (reads_again h b rid c st) as [Hr Hb].
  split_and!; try done.
  - intros uid s Hs. rewrite getUserSession_lookup.
    destruct (decide _) as [->|]; [|done].
    unfold ordinary, current_session. by rewrite Hs.
  - by rewrite getUserSession_lookup, decide_True.
  - apply getUserSession_users.
  - apply getUserSession_builtins.
  - unfold ordinary, vacant, getUserSession.
    intros [[s ->]|Hno]; [done|].
    destruct (sessions st !! userId c); [done|].
    destruct (inherited (userId c)); [done|].
    by destruct (finds_basket (userId c) st).
Qed.

(** ** Further properties: verify *)

(** X23. While nothing truthy is stored under [Object.prototype.basket]
    and every account of the users table sits under its own [id], the
    token of a successful login makes [GET /api/verify] answer 200 with
    the account the login answered with, for the seven days that follow
    and in every later state that still has the account. *)
Theorem verify_after_login (now now' : Z) (req : Request) (st st' : State)
    (token : string) (usr_json : JSON) (b : Body) (rid : string) :
  pristine st →
  well_keyed (users st) →
  users st ⊆ users st' →
  (login now req st).1
    = Sent 200 (Some (JObj [("token", JStr token); ("user", usr_json)])) →
  now' < now + 604800 →
  protected get_verify now' (mkRequest (Some ("Bearer " +:+ token)) b rid None) st'
  = (Sent 200 (Some (JObj [("user", usr_json)])), st').
Proof.
  intros Hpr Hwk Hsub Hlogin Hwin.
  apply login_success_inv in Hlogin as (u & usr & _ & Hk & Hjson); [|done].
  injection Hjson as -> ->.
  pose proof (Hwk _ _ Hk) as Hid.
  unfold protected. rewrite authenticateToken_cases. cbn [authorization].
  destruct (jws_encode_compact
              {| payload := {| userId := id usr; username := id usr; iat := now;
                               exp := Some (now + expiresIn); nbf := None |};
                 signature := hmac JWT_SECRET
                                {| userId := id usr; username := id usr; iat := now;
                                   exp := Some (now + expiresIn); nbf := None |} |})
    as [Hns Hne].
  change (String.append "Bearer " (issue (id usr) (id usr) now))
    with ("Bearer" +:+ String " " (issue (id usr) (id usr) now)).
  rewrite bearer_token_scheme by done.
  destruct (String.eqb_spec (issue (id usr) (id usr) now) EmptyString); [done|].
  rewrite issued_token_lifetime_aux by done.
  unfold get_verify, with_user. simpl.
  rewrite Hid.
  assert (Hk' : users st' !! toLowerCase u = Some usr)
    by (eapply lookup_weaken; [exact Hk|exact Hsub]).
  rewrite Hk'. unfold user_body. by rewrite Hid.
Qed.
End Server.

(** ** The instance satisfies what the theorems assume *)

Lemma bits_to_pos_to_bits (p : positive) : bits_to_pos (pos_to_bits p) = p.
Proof. induction p as [q IH|q IH|]; simpl; by rewrite ?IH. Qed.

Lemma pos_to_bits_no_space (p : positive) : no_space (pos_to_bits p) = true.
Proof. induction p as [q IH|q IH|]; simpl; by rewrite ?IH. Qed.

Lemma demo_decode_encode (j : Jws) : demo_decode (demo_encode j) = Some j.
Proof.
  unfold demo_decode, demo_encode. simpl.
  rewrite bits_to_pos_to_bits, decode_encode. simpl.
  by destruct j as [[] ?].
Qed.

Lemma demo_encode_compact (j : Jws) :
  no_space (demo_encode j) = true ∧ demo_encode j ≠ EmptyString.
Proof.
  unfold demo_encode. split; [|done]. simpl. apply pos_to_bits_no_space.
Qed.

Lemma ascii_toLowerCase_empty (u : string) :
  ascii_toLowerCase u = EmptyString ↔ u = EmptyString.
Proof. by destruct u. Qed.

(** ** The claims at concrete inputs *)

Lemma token_roundtrip_witness :
  (∀ j, demo_decode (demo_encode j) = Some j)
  ∧ ∃ c, verify demo_secret demo_hmac demo_decode
           (issue demo_secret demo_hmac demo_encode "thomas" "thomas" 1700000000)
           1700000000 = Valid c
         ∧ userId c = "thomas" ∧ username c = "thomas".
Proof.
  split; [exact demo_decode_encode|].
  exact (proj1 (token_roundtrip_and_rejection demo_secret demo_hmac demo_encode
                  demo_decode demo_decode_encode)
               "thomas" "thomas" 1700000000).
Defined.

Lemma login_distinguishes_witness :
  login demo_secret demo_hmac demo_encode demo_compare ascii_toLowerCase 1700000000
        (login_request_number "thomas" 12345) demo_state
  = (Uncaught LibraryError, demo_state)
  ∧ login demo_secret demo_hmac demo_encode demo_compare ascii_toLowerCase 1700000000
          (login_request_number "nobody" 12345) demo_state
    = (Sent 401 (error_body "Invalid credentials"), demo_state).
Proof.
  pose proof (proj1 (proj2
    (login_distinguishes_accounts demo_secret demo_hmac demo_encode demo_compare
       ascii_toLowerCase))) as H.
  split.
  - refine (proj2 (H 1700000000 demo_state (login_request_number "thomas" 12345)
                     "thomas" (JNum (number_of_Z 12345)) _ _ _ _ _)
                  {| id := "thomas"; passwordHash := "$2a$10$shopping123";
                     name := "Thomas" |} _);
      try reflexivity; discriminate.
  - refine (proj1 (H 1700000000 demo_state (login_request_number "nobody" 12345)
                     "nobody" (JNum (number_of_Z 12345)) _ _ _ _ _) _ _);
      try reflexivity; discriminate.
Defined.




Lemma get_basket_list_witness :
  ∃ xs,
    (run_op thomas GetBasket
       (run_ops [(thomas, UpdateBasket (BObj [("basket", JArr [JStr "milk"])]));
                 (thomas, SaveRecipe soup);
                 (thomas, ClearBasket);
                 (thomas, UpdateBasket (BObj [("basket", JArr [JStr "eggs"])]))]
                demo_state)).1
    = Sent 200 (Some (JArr xs)).
Proof.
  refine (proj2 (get_basket_list _ demo_state thomas _ _) _ _).
  - intros e He.
    repeat (apply elem_of_cons in He as [->|He]; [reflexivity|]).
    by apply elem_of_nil in He.
  - reflexivity.
  - reflexivity.
  - repeat constructor.
Defined.

Lemma get_verify_witness :
  (∀ j, demo_decode (demo_encode j) = Some j)
  ∧ (∀ j, no_space (demo_encode j) = true ∧ demo_encode j ≠ EmptyString)
  ∧ protected demo_secret demo_hmac demo_decode get_verify 1700000100
      (mkRequest
         (Some ("Bearer " +:+ issue demo_secret demo_hmac demo_encode
                                "ghost" "ghost" 1700000000))
         (BObj []) EmptyString None)
      demo_state
    = (Uncaught TypeError, demo_state).
Proof.
  split; [exact demo_decode_encode|]. split; [exact demo_encode_compact|].
  refine (proj1 (proj2 (proj2 (proj2
    (get_verify_needs_known_user demo_secret demo_hmac demo_encode demo_decode
       demo_decode_encode demo_encode_compact))))
    "ghost" 1700000000 1700000100 (BObj []) EmptyString demo_state _ _ _ _).
  - lia.
  - reflexivity.
  - reflexivity.
  - discriminate.
Defined.

(** ** Where the code departs from the claims *)



(** C9, as stated, fails: after a basket update whose body has no list
    under [basket], reading the basket answers with what was stored, a
    string here and [undefined] when the field was missing. *)
Lemma get_basket_not_a_list :
  (run_op thomas GetBasket
     (run_ops [(thomas, UpdateBasket (BObj [("basket", JStr "milk")]))]
              demo_state)).1
  = Sent 200 (Some (JStr "milk"))
  ∧ (run_op thomas GetBasket
       (run_ops [(thomas, UpdateBasket (BObj []))] demo_state)).1
    = Sent 200 None
  ∧ is_list (Some (JStr "milk")) = false
  ∧ is_list None = false.
Proof. by vm_compute. Qed.

(** ** The scenario of the specification, run on the instance *)

Example scenario_login :
  (login demo_secret demo_hmac demo_encode demo_compare ascii_toLowerCase 1700000000
         (login_request "Thomas" "shopping123") demo_state).1
  = Sent 200
      (Some (JObj [("token",
                    JStr (issue demo_secret demo_hmac demo_encode
                                "thomas" "thomas" 1700000000));
                   ("user", JObj [("id", JStr "thomas");
                                  ("name", JStr "Thomas")])])).
Proof. by vm_compute. Qed.

Example scenario_recipes :
  let route := protected demo_secret demo_hmac demo_decode in
  let token := issue demo_secret demo_hmac demo_encode "thomas" "thomas" 1700000000 in
  let t := 1700000060 in
  let list := bearer_request token (BObj []) EmptyString in
  let s1 := route get_recipes t list demo_state in
  let s2 := route post_recipes t (bearer_request token soup EmptyString) s1.2 in
  let s3 := route get_recipes t list s2.2 in
  let s4 := route delete_recipes t (bearer_request token (BObj []) "r1") s3.2 in
  let s5 := route get_recipes t list s4.2 in
  s1.1 = Sent 200 (Some (JArr []))
  ∧ s2.1 = Sent 200 (Some (JObj [("success", JBool true); ("recipe", to_json soup)]))
  ∧ s3.1 = Sent 200 (Some (JArr [to_json soup]))
  ∧ s4.1 = Sent 200 success_body
  ∧ s5.1 = Sent 200 (Some (JArr [])).
Proof. by vm_compute. Qed.

Example scenario_gate :
  let route := protected demo_secret demo_hmac demo_decode in
  let token := issue demo_secret demo_hmac demo_encode "thomas" "thomas" 1700000000 in
  (route get_recipes 1700000060 (mkRequest None (BObj []) EmptyString None) demo_state).1
  = no_token
  ∧ (route get_recipes 1700000060
       (mkRequest (Some "Bearer") (BObj []) EmptyString None) demo_state).1 = no_token
  ∧ (route get_recipes 1700000060
       (bearer_request "J0110" (BObj []) EmptyString) demo_state).1 = bad_token
  ∧ (route get_recipes (1700000000 + 604800)
       (bearer_request token (BObj []) EmptyString) demo_state).1 = bad_token
  ∧ (route get_recipes (1700000000 + 604799)
       (bearer_request token (BObj []) EmptyString) demo_state).1
    = Sent 200 (Some (JArr [])).
Proof. by vm_compute. Qed.

(** A login whose username is not a string throws before any lookup is
    made; one whose password is not a string throws for an account that
    exists and is answered 401 for one that does not. *)
Example scenario_login_number :
  (login demo_secret demo_hmac demo_encode demo_compare ascii_toLowerCase 1700000000
         (mkRequest None (BObj [("username", JNum (number_of_Z 5));
                                ("password", JStr "x")])
                    EmptyString None)
         demo_state).1
  = Uncaught TypeError
  ∧ (login demo_secret demo_hmac demo_encode demo_compare ascii_toLowerCase 1700000000
           (login_request_number "thomas" 12345) demo_state).1
    = Uncaught LibraryError
  ∧ (login demo_secret demo_hmac demo_encode demo_compare ascii_toLowerCase 1700000000
           (login_request_number "nobody" 12345) demo_state).1
    = Sent 401 (error_body "Invalid credentials").
Proof. by vm_compute. Qed.

(** The user id [constructor]: the tables answer with the function
    [Object].  No session record is made, the recipe routes fail or send
    nothing, the basket lives on the function and is not saved, login
    fails in the password check, and [GET /api/verify] answers with the
    name of the function. *)
Example scenario_constructor :
  let c := intruder "constructor" in
  let req b := mkRequest None b EmptyString (Some c) in
  getUserSession "constructor" demo_state = (Inherited "constructor", demo_state)
  ∧ get_recipes (req (BObj [])) demo_state = (Sent 200 None, demo_state)
  ∧ post_recipes (req soup) demo_state = (Uncaught TypeError, demo_state)
  ∧ delete_recipes (req (BObj [])) demo_state = (Uncaught TypeError, demo_state)
  ∧ get_basket (req (BObj [])) demo_state = (Sent 200 None, demo_state)
  ∧ sessions_file (post_basket (req (BObj [("basket", JArr [JStr "milk"])]))
                               demo_state).2 = ∅
  ∧ (get_basket (req (BObj []))
       (post_basket (req (BObj [("basket", JArr [JStr "milk"])])) demo_state).2).1
    = Sent 200 (Some (JArr [JStr "milk"]))
  ∧ (login demo_secret demo_hmac demo_encode demo_compare ascii_toLowerCase
           1700000000 (login_request "Constructor" "x") demo_state).1
    = Uncaught LibraryError
  ∧ (get_verify (req (BObj [])) demo_state).1
    = Sent 200 (Some (JObj [("user", JObj [("name", JStr "Object")])])).
Proof. by vm_compute. Qed.

(** The user id [__proto__]: a basket update lands on [Object.prototype].
    From then on a record without a basket of its own, and a request body
    without a [basket], read the stored value; it is in no file. *)
Example scenario_prototype :
  let maria := {| userId := "maria"; username := "maria"; iat := 1700000000;
                  exp := Some (1700000000 + 604800); nbf := None |} in
  let st0 := written "maria" {| recipes := [stew]; basket := None |} demo_state in
  let st1 := (post_basket (mkRequest None (BObj [("basket", JArr [JStr "x"])])
                                     EmptyString (Some (intruder "__proto__")))
                          st0).2 in
  (get_basket (mkRequest None (BObj []) EmptyString (Some maria)) st0).1
  = Sent 200 None
  ∧ (get_basket (mkRequest None (BObj []) EmptyString (Some maria)) st1).1
    = Sent 200 (Some (JArr [JStr "x"]))
  ∧ sessions st1 = sessions st0
  ∧ sessions_file st1 = sessions st0
  ∧ (get_basket (mkRequest None (BObj []) EmptyString (Some thomas))
       (post_basket (mkRequest None (BObj []) EmptyString (Some thomas)) st1).2).1
    = Sent 200 (Some (JArr [JStr "x"])).
Proof. by vm_compute. Qed.

(** ** The further properties at concrete inputs *)

Lemma issued_token_lifetime_witness :
  (∀ j, demo_decode (demo_encode j) = Some j)
  ∧ verify demo_secret demo_hmac demo_decode
      (issue demo_secret demo_hmac demo_encode "thomas" "thomas" 1700000000)
      (1700000000 + 604800)
    = Invalid.
Proof.
  split; [exact demo_decode_encode|].
  exact (issued_token_lifetime demo_secret demo_hmac demo_encode demo_decode
           demo_decode_encode "thomas" "thomas" 1700000000 (1700000000 + 604800)).
Defined.

Lemma gate_admits_only_signed_witness :
  let token := issue demo_secret demo_hmac demo_encode "thomas" "thomas" 1700000000 in
  ∃ h t j,
    authorization (bearer_request token (BObj []) EmptyString) = Some h
    ∧ split_space h !! 1%nat = Some t ∧ t ≠ EmptyString
    ∧ demo_decode t = Some j
    ∧ signature j = demo_hmac demo_secret (payload j)
    ∧ (∀ e, exp (payload j) = Some e → 1700000060 < e)
    ∧ (∀ n, nbf (payload j) = Some n → n <= 1700000060)
    ∧ set_user (bearer_request token (BObj []) EmptyString) thomas
      = set_user (bearer_request token (BObj []) EmptyString) (payload j).
Proof.
  intros token.
  apply (gate_admits_only_signed demo_secret demo_hmac demo_decode 1700000060
           (bearer_request token (BObj []) EmptyString)).
  by vm_compute.
Defined.

Lemma gate_ignores_scheme_witness :
  bearer_token (Some "Basic J0110") = Some "J0110"
  ∧ bearer_token (Some " J0110 and more") = Some "J0110".
Proof.
  split.
  - refine (proj1 (gate_ignores_scheme demo_secret demo_hmac demo_decode 0
                     "Basic" "J0110" "x" (BObj []) EmptyString None _ _));
      reflexivity.
  - refine (proj1 (proj2 (gate_ignores_scheme demo_secret demo_hmac demo_decode 0
                            EmptyString "J0110" "and more" (BObj []) EmptyString
                            None _ _)));
      reflexivity.
Defined.

Lemma login_ignores_case_witness :
  login demo_secret demo_hmac demo_encode demo_compare ascii_toLowerCase 1700000000
        (login_request "THOMAS" "shopping123") demo_state
  = login demo_secret demo_hmac demo_encode demo_compare ascii_toLowerCase 1700000000
          (login_request "thomas" "shopping123") demo_state.
Proof.
  refine (login_ignores_case demo_secret demo_hmac demo_encode demo_compare
            ascii_toLowerCase ascii_toLowerCase_empty
            1700000000 (login_request "THOMAS" "shopping123")
            (login_request "thomas" "shopping123") demo_state
            "THOMAS" "thomas" _ _ _ _); reflexivity.
Defined.

Lemma login_token_opens_routes_witness :
  let token := issue demo_secret demo_hmac demo_encode "thomas" "thomas" 1700000000 in
  ∃ c uid uname,
    JObj [("id", JStr "thomas"); ("name", JStr "Thomas")]
      = JObj [("id", JStr uid); ("name", JStr uname)]
    ∧ userId c = uid
    ∧ protected demo_secret demo_hmac demo_decode post_recipes 1700000060
        (mkRequest (Some ("Bearer " +:+ token)) soup EmptyString None) demo_state
      = post_recipes (mkRequest (Some ("Bearer " +:+ token)) soup EmptyString (Some c))
          demo_state.
Proof.
  intros token.
  refine (login_token_opens_routes demo_secret demo_hmac demo_encode demo_decode
            demo_compare ascii_toLowerCase demo_decode_encode demo_encode_compact
            1700000000 1700000060 (login_request "Thomas" "shopping123")
            demo_state demo_state token _ post_recipes soup EmptyString _ _ _).
  - reflexivity.
  - by vm_compute.
  - lia.
Defined.

Lemma script_touches_only_senders_witness :
  sessions (run_ops [(thomas, SaveRecipe soup);
                     (intruder "constructor", ClearBasket)]
              (written "maria" {| recipes := [stew]; basket := None |} demo_state))
    !! "maria"
  = Some {| recipes := [stew]; basket := None |}.
Proof.
  refine (eq_trans
    (proj1 (script_touches_only_senders
              [(thomas, SaveRecipe soup); (intruder "constructor", ClearBasket)]
              (written "maria" {| recipes := [stew]; basket := None |} demo_state)
              "maria" _ _)) _).
  - intros e He.
    repeat (apply elem_of_cons in He as [->|He]; [reflexivity|]).
    by apply elem_of_nil in He.
  - unfold senders. rewrite elem_of_list_to_set. simpl. intros Hin.
    repeat (apply elem_of_cons in Hin as [Hin|Hin]; [discriminate|]).
    by apply elem_of_nil in Hin.
  - by vm_compute.
Defined.

Lemma script_session_owners_witness :
  is_Some (sessions (run_ops [(thomas, GetRecipes);
                              (intruder "constructor", GetBasket)] demo_state)
             !! "thomas")
  ∧ ¬ is_Some (sessions (run_ops [(thomas, GetRecipes);
                                  (intruder "constructor", GetBasket)] demo_state)
                 !! "constructor").
Proof.
  assert (∀ e, e ∈ [(thomas, GetRecipes); (intruder "constructor", GetBasket)] →
               contained (userId e.1) demo_state = true) as Hall.
  { intros e He.
    repeat (apply elem_of_cons in He as [->|He]; [reflexivity|]).
    by apply elem_of_nil in He. }
  split.
  - apply (proj2 (script_session_owners _ demo_state "thomas" Hall)).
    right. split; [|reflexivity].
    unfold senders. rewrite elem_of_list_to_set. simpl. by left.
  - intros Hsome.
    destruct (proj1 (script_session_owners _ demo_state "constructor" Hall) Hsome)
      as [[s Hs]|[_ Hord]]; discriminate.
Defined.

Lemma recipes_and_basket_independent_witness :
  basket (current_session "thomas"
            (run_op thomas (SaveRecipe soup) demo_state).2)
  = basket (current_session "thomas" demo_state).
Proof.
  refine (proj1 (recipes_and_basket_independent thomas (SaveRecipe soup)
                   demo_state "thomas" _)).
  reflexivity.
Defined.

Lemma delete_basket_is_replace_empty_witness :
  delete_basket (as_thomas (BObj []) EmptyString) demo_state
  = post_basket (as_thomas (BObj [("basket", JArr [])]) EmptyString) demo_state.
Proof.
  refine (proj1 (delete_basket_is_replace_empty None None None (BObj []) (BObj [])
                   EmptyString EmptyString EmptyString thomas demo_state _)).
  reflexivity.
Defined.

Lemma save_then_delete_restores_witness :
  recipes (current_session "thomas"
     (delete_recipes (as_thomas (BObj []) "r1")
        (post_recipes (as_thomas soup EmptyString) demo_state).2).2)
  = recipes (current_session "thomas" demo_state).
Proof.
  refine (save_then_delete_restores None None (BObj []) "r1" EmptyString soup
            thomas demo_state _ _).
  - reflexivity.
  - intros r Hr. by apply elem_of_nil in Hr.
Defined.

Lemma saved_recipe_is_listed_witness :
  ∃ listed,
    (get_recipes (as_thomas (BObj []) EmptyString)
       (post_recipes (as_thomas soup EmptyString) demo_state).2).1
    = Sent 200 (Some (JArr (to_json <$> listed)))
    ∧ soup ∈ listed
    ∧ (∀ r, r ∈ recipes (current_session "thomas" demo_state) →
            same_id r soup = false → r ∈ listed)
    ∧ (length (recipes (current_session "thomas" demo_state)) ≤ length listed
       ≤ S (length (recipes (current_session "thomas" demo_state))))%nat.
Proof.
  refine (saved_recipe_is_listed None None (BObj []) EmptyString EmptyString soup
            thomas demo_state _).
  reflexivity.
Defined.

Lemma verify_after_login_witness :
  let token := issue demo_secret demo_hmac demo_encode "thomas" "thomas" 1700000000 in
  protected demo_secret demo_hmac demo_decode get_verify 1700000060
    (mkRequest (Some ("Bearer " +:+ token)) (BObj []) EmptyString None)
    (written "thomas" {| recipes := [soup]; basket := None |} demo_state)
  = (Sent 200 (Some (JObj [("user", JObj [("id", JStr "thomas");
                                          ("name", JStr "Thomas")])])),
     written "thomas" {| recipes := [soup]; basket := None |} demo_state).
Proof.
  intros token.
  refine (verify_after_login demo_secret demo_hmac demo_encode demo_decode
            demo_compare ascii_toLowerCase demo_decode_encode demo_encode_compact
            1700000000 1700000060 (login_request "Thomas" "shopping123")
            demo_state
            (written "thomas" {| recipes := [soup]; basket := None |} demo_state)
            token _ (BObj []) EmptyString
            _ _ _ _ _).
  - reflexivity.
  - intros k u. unfold demo_state. simpl.
    intros [<- <-]%lookup_singleton_Some. reflexivity.
  - reflexivity.
  - by vm_compute.
  - lia.
Defined.
